(** * Scene_distribution.py: scene boundaries and short-scene merging

    A shallow embedding of [detect_scenes_dynamic], [merge_short_scenes],
    [split_scenes] and the script body from [src/Scene_distribution.py].

    - Python [int] is [Z].  The merge pass, which only subtracts and
      compares, is written over any number type with these two operations;
      what is proved of it holds at IEEE binary64, the program's own numbers,
      as at exact rationals.  In the detection driver the frame rate, the
      seconds and the motion values are exact rationals [Q]: the rounding of
      the divisions is not modelled there.
    - Python exceptions are the [Raise] results of an error monad.
    - The OpenCV capture object and the PySceneDetect detector are external:
      the capture is a record holding the frames still to be read, the
      detector an interface with the two operations the driver calls.  Every
      call on either object is appended to a trace.  The driver is given
      twice: with collaborators whose calls return, and with collaborators
      whose calls may raise; the two agree when no call raises. *)

From Stdlib Require Import ZArith QArith Lia Lqa Sorting.Sorted.
From Stdlib Require Import Floats.PrimFloat Floats.FloatOps Floats.SpecFloat.
From stdpp Require Import base option list sorting gmap strings pretty.
From Equations Require Import Equations.

Local Open Scope Z_scope.

(** ** Exceptions *)

Inductive exn : Type := IOError | ZeroDivisionError | IndexError.

Inductive result (A : Type) : Type :=
| Ok (a : A)
| Raise (e : exn).
Arguments Ok {A} a.
Arguments Raise {A} e.

Definition result_bind {A B : Type} (m : result A) (k : A -> result B) : result B :=
  match m with
  | Ok a => k a
  | Raise e => Raise e
  end.

Notation "'let?' x ':=' m 'in' k" := (result_bind m (fun x => k))
  (at level 10, x pattern, m at level 100, k at level 200).


(** ** Python list indexing

    [l[i]] and [l[i] = x] with Python's negative indices; an index out of
    range raises [IndexError]. *)

Definition py_index {A : Type} (l : list A) (i : Z) : result nat :=
  let j := if i <? 0 then i + Z.of_nat (length l) else i in
  if (0 <=? j) && (j <? Z.of_nat (length l)) then Ok (Z.to_nat j) else Raise IndexError.

Definition getitem {A : Type} (l : list A) (i : Z) : result A :=
  let? j := py_index l i in
  match l !! j with
  | Some x => Ok x
  | None => Raise IndexError
  end.

Definition setitem {A : Type} (l : list A) (i : Z) (x : A) : result (list A) :=
  let? j := py_index l i in Ok (<[j := x]> l).

(** ** Numbers

    [merge_short_scenes] uses its numbers only through [end - start] and
    [duration < min_duration]. *)

Class PyNum (T : Type) : Type := {
  py_sub : T -> T -> T;
  py_lt : T -> T -> bool
}.

Definition Qltb (x y : Q) : bool :=
  match Qcompare x y with Lt => true | _ => false end.

#[export] Instance PyNum_Q : PyNum Q := {| py_sub := Qminus; py_lt := Qltb |}.

#[export] Instance PyNum_Z : PyNum Z := {| py_sub := Z.sub; py_lt := Z.ltb |}.

#[export] Instance PyNum_float : PyNum float :=
  {| py_sub := PrimFloat.sub; py_lt := PrimFloat.ltb |}.

(** ** merge_short_scenes (lines 84-106) *)

Section Merge.
Context {T : Type} `{PyNum T}.

Definition Scene : Type := (T * T)%type.

(** The body of [for start, end in scenes[1:]], with [merged] threaded. *)
Fixpoint merge_loop (min_duration : T) (rest : list Scene) (merged : list Scene)
  : result (list Scene) :=
  match rest with
  | [] => Ok merged
  | (start, end_) :: rest' =>
      let? prev := getitem merged (-1) in
      let '(prev_start, prev_end) := prev in
      let duration := py_sub end_ start in
      if py_lt duration min_duration then
        let? merged' := setitem merged (-1) (prev_start, end_) in
        merge_loop min_duration rest' merged'
      else
        merge_loop min_duration rest' (merged ++ [(start, end_)])
  end.

Definition merge_short_scenes (scenes : list Scene) (min_duration : T)
  : result (list Scene) :=
  match scenes with
  | [] => Ok []
  | _ =>
      let? first := getitem scenes 0 in
      merge_loop min_duration (drop 1 scenes) [first]
  end.

(** The Scene Merger as the specification words it: the first scene seeds
    the result; every later scene either extends the end of the last merged
    scene (when its own duration is below [min_duration]) or is appended.
    [cur] is the last merged scene. *)
Fixpoint absorb (min_duration : T) (cur : Scene) (rest : list Scene) : list Scene :=
  match rest with
  | [] => [cur]
  | (start, end_) :: rest' =>
      if py_lt (py_sub end_ start) min_duration
      then absorb min_duration (cur.1, end_) rest'
      else cur :: absorb min_duration (start, end_) rest'
  end.

Definition scene_merger (scenes : list Scene) (min_duration : T) : list Scene :=
  match scenes with
  | [] => []
  | first :: rest => absorb min_duration first rest
  end.

End Merge.

(** ** Numbers of the detection driver *)

(** [motion_val > motion_threshold] on floats. *)
Definition Qgtb (x y : Q) : bool := Qltb y x.

(** [a / b] for an [int] and a [float]: true division, which raises on a
    zero divisor. *)
Definition truediv (a : Z) (b : Q) : result Q :=
  if Qeq_bool b 0 then Raise ZeroDivisionError else Ok (inject_Z a / b)%Q.

(** [int(x)] truncates towards zero. *)
Definition py_int (x : Q) : Z := Z.quot (Qnum x) (Z.pos (Qden x)).

(** [range(n)]: empty for [n <= 0]. *)
Definition py_range (n : Z) : list Z := Z.of_nat <$> seq 0 (Z.to_nat n).

(** [sorted(set(l))]. *)
Definition py_set (l : list Z) : gset Z := list_to_set l.
Definition py_sorted (s : gset Z) : list Z := merge_sort Z.le (elements s).

(** A list comprehension whose element expression may raise. *)
Fixpoint comprehension {A B : Type} (f : A -> result B) (l : list A) : result (list B) :=
  match l with
  | [] => Ok []
  | x :: l' => let? y := f x in let? ys := comprehension f l' in Ok (y :: ys)
  end.

(** ** Boundary Builder (lines 77-81) *)

(** The element [(boundaries[i]/fps, boundaries[i+1]/fps)] of the scene
    comprehension. *)
Definition scene_at (boundaries : list Z) (fps : Q) (i : Z) : result (Q * Q) :=
  let? b0 := getitem boundaries i in
  let? start := truediv b0 fps in
  let? b1 := getitem boundaries (i + 1) in
  let? end_ := truediv b1 fps in
  Ok (start, end_).

Definition boundary_builder (cut_frame_nums : list Z) (total_frames : Z) (fps : Q)
  : result (list (Q * Q)) :=
  let cut_frame_nums := py_sorted (py_set cut_frame_nums) in
  let boundaries := [0] ++ cut_frame_nums ++ [total_frames] in
  comprehension (scene_at boundaries fps)
    (py_range (Z.of_nat (length boundaries) - 1)).

(** The boundary list and the scenes as the specification words them. *)
Definition scene_boundaries (cuts : list Z) (total_frames : Z) : list Z :=
  [0] ++ py_sorted (py_set cuts) ++ [total_frames].

Definition adjacent_pairs {A : Type} (l : list A) : list (A * A) := zip l (drop 1 l).

Definition to_seconds (fps : Q) (pair : Z * Z) : Q * Q :=
  (inject_Z pair.1 / fps, inject_Z pair.2 / fps)%Q.

(** ** The motion-adaptive skip decision (line 59) *)

Definition skip_decision (motion_val motion_threshold : Q) (min_skip max_skip : Z) : Z :=
  if Qgtb motion_val motion_threshold then min_skip else max_skip.

(** ** External collaborators *)

(** OpenCV image operations used by the Motion Sampler: grayscale conversion
    and [cv2.absdiff(a, b).mean()]. *)
Class Vision (Frame Gray : Type) : Type := {
  cvtColor : Frame -> Gray;
  absdiff_mean : Gray -> Gray -> Q
}.

(** The cut detector: its constructor and the two operations of the driving
    protocol.  Each operation returns the reported cut indices and the
    detector's next internal state.  Here, as in [Vision], every call
    returns; [RaisingVision] and [RaisingDetector] below let them raise. *)
Class Detector (Frame D : Type) : Type := {
  AdaptiveDetector : Q -> Z -> Q -> Z -> D;
  process_frame : D -> Z -> Frame -> list Z * D;
  post_process : D -> Z -> list Z * D
}.

(** The tunables of [detect_scenes_dynamic], with the defaults of its
    signature. *)
Record Params : Type := {
  motion_threshold : Q;
  min_skip : Z;
  max_skip : Z;
  adaptive_threshold : Q;
  window_width : Z;
  min_content_val : Q
}.

Definition default_params : Params :=
  {| motion_threshold := 5; min_skip := 0; max_skip := 5;
     adaptive_threshold := 3; window_width := 2; min_content_val := 15 |}.

Section Driver.
Context {Frame Gray D : Type} `{Vision Frame Gray} `{Detector Frame D}.

(** What [input_path] holds: container metadata and the frames. *)
Record Video : Type := {
  video_fps : Q;
  video_frame_count : Q;
  video_frames : list Frame
}.

(** The state of a [cv2.VideoCapture] object; [stream] holds the frames not
    yet read or grabbed. *)
Record VideoCapture : Type := {
  isOpened : bool;
  CAP_PROP_FPS : Q;
  CAP_PROP_FRAME_COUNT : Q;
  stream : list Frame
}.

(** Calls on the collaborators, in program order. *)
Inductive Event : Type :=
| EvOpen (ok : bool)
| EvRead (ret : bool)
| EvGrab (ret : bool)
| EvRelease
| EvProcessFrame (frame_num : Z) (frame : Frame) (cuts : list Z)
| EvPostProcess (frame_num : Z) (cuts : list Z).

Record World : Type := { cap : VideoCapture; trace : list Event }.

Definition emit (e : Event) (w : World) : World :=
  {| cap := cap w; trace := trace w ++ [e] |}.

(** [cv2.VideoCapture(input_path)]; [input] is [None] when the path cannot
    be opened. *)
Definition cv2_VideoCapture (input : option Video) : World :=
  match input with
  | Some v =>
      {| cap := {| isOpened := true; CAP_PROP_FPS := video_fps v;
                   CAP_PROP_FRAME_COUNT := video_frame_count v;
                   stream := video_frames v |};
         trace := [EvOpen true] |}
  | None =>
      {| cap := {| isOpened := false; CAP_PROP_FPS := 0;
                   CAP_PROP_FRAME_COUNT := 0; stream := [] |};
         trace := [EvOpen false] |}
  end.

Definition set_stream (w : World) (s : list Frame) : World :=
  {| cap := {| isOpened := isOpened (cap w); CAP_PROP_FPS := CAP_PROP_FPS (cap w);
               CAP_PROP_FRAME_COUNT := CAP_PROP_FRAME_COUNT (cap w); stream := s |};
     trace := trace w |}.

(** [ret, frame = cap.read()]: [Some frame] when [ret] is true. *)
Definition cap_read (w : World) : option Frame * World :=
  match stream (cap w) with
  | [] => (None, emit (EvRead false) w)
  | frame :: rest => (Some frame, emit (EvRead true) (set_stream w rest))
  end.

(** [cap.grab()]: advance by one frame without decoding it. *)
Definition cap_grab (w : World) : bool * World :=
  match stream (cap w) with
  | [] => (false, emit (EvGrab false) w)
  | _ :: rest => (true, emit (EvGrab true) (set_stream w rest))
  end.

Definition cap_release (w : World) : World :=
  emit EvRelease
    {| cap := {| isOpened := false; CAP_PROP_FPS := CAP_PROP_FPS (cap w);
                 CAP_PROP_FRAME_COUNT := CAP_PROP_FRAME_COUNT (cap w); stream := [] |};
       trace := trace w |}.

Definition call_process_frame (detector : D) (frame_num : Z) (frame : Frame) (w : World)
  : list Z * D * World :=
  let '(cuts, detector') := process_frame detector frame_num frame in
  (cuts, detector', emit (EvProcessFrame frame_num frame cuts) w).

Definition call_post_process (detector : D) (frame_num : Z) (w : World)
  : list Z * D * World :=
  let '(cuts, detector') := post_process detector frame_num in
  (cuts, detector', emit (EvPostProcess frame_num cuts) w).

(** The local variables that the [while] loop updates. *)
Record Locals : Type := {
  detector : D;
  prev_gray : Gray;
  cut_frame_nums : list Z;
  frame_num : Z
}.

(** [for _ in range(skip): if not cap.grab(): break; frame_num += 1], with
    [n] the number of iterations left. *)
Fixpoint skip_loop (n : nat) (frame_num : Z) (w : World) : Z * World :=
  match n with
  | O => (frame_num, w)
  | S n' =>
      let '(ok, w) := cap_grab w in
      if negb ok then (frame_num, w) else skip_loop n' (frame_num + 1) w
  end.

(** Lines 57-71: one iteration of the [while] loop after a successful read. *)
Definition loop_body (p : Params) (st : Locals) (frame : Frame) (w : World)
  : Locals * World :=
  let gray := cvtColor frame in
  let motion_val := absdiff_mean (prev_gray st) gray in
  let skip := skip_decision motion_val (motion_threshold p) (min_skip p) (max_skip p) in
  let '(cuts, detector', w) := call_process_frame (detector st) (frame_num st) frame w in
  let cut_frame_nums' :=
    match cuts with [] => cut_frame_nums st | _ => cut_frame_nums st ++ cuts end in
  let '(frame_num', w) := skip_loop (Z.to_nat skip) (frame_num st) w in
  ({| detector := detector'; prev_gray := gray;
      cut_frame_nums := cut_frame_nums'; frame_num := frame_num' + 1 |}, w).

(** Keeps the equation between a scrutinee and its value for the termination
    argument. *)
Definition inspect {A : Type} (a : A) : {b : A | a = b} := exist _ a eq_refl.

(** Lines 52-71: [while True], left through [break] when a read fails.  Every
    iteration consumes at least the frame it reads. *)
#[local] Unset Equations With Funext.
#[local] Set Warnings "-solve_obligation_error".
Equations? detect_loop (p : Params) (st : Locals) (w : World) : Locals * World
  by wf (length (stream (cap w))) lt :=
detect_loop p st w with inspect (cap_read w) := {
  | exist _ (None, w1) _ => (st, w1)
  | exist _ (Some frame, w1) Hread with inspect (loop_body p st frame w1) := {
      | exist _ (st', w2) Hbody => detect_loop p st' w2 } }.
Proof.
  assert (Hskip : forall n fn w0, (length (stream (cap (skip_loop n fn w0).2))
                                  <= length (stream (cap w0)))%nat).
  { induction n as [|n IH]; intros fn w0; cbn; [lia|].
    unfold cap_grab. destruct (stream (cap w0)) as [|f rest] eqn:Hs; cbn.
    - rewrite Hs. cbn. lia.
    - etrans; [apply IH|]. cbn. lia. }
  unfold cap_read in Hread. destruct (stream (cap w)) as [|f rest] eqn:Hs; [discriminate|].
  injection Hread as <- <-.
  unfold loop_body, call_process_frame in Hbody.
  destruct (process_frame _ _ _) as [cuts det'].
  match type of Hbody with context [skip_loop ?n ?fn ?w0] =>
    specialize (Hskip n fn w0); destruct (skip_loop n fn w0) as [fn' w3] end.
  injection Hbody as _ <-. cbn in Hskip. cbn. lia.
Qed.
Next Obligation.
  unfold detect_loop. rewrite Subterm.FixWf_unfold.
  - cbn [pr1 pr2]. unfold detect_loop_functional, detect_loop_unfold,
      detect_loop_clause_1, detect_loop_unfold_clause_1.
    destruct (inspect (cap_read w)) as [[[frame|] w1] e]; [|reflexivity].
    unfold detect_loop_clause_1_clause_2, detect_loop_unfold_clause_1_clause_2.
    destruct (inspect (loop_body p st frame w1)) as [[st2 w2] e2].
    reflexivity.
  - intros [p' [st' w']] f g Hfg. cbn [pr1 pr2].
    unfold detect_loop_functional, detect_loop_clause_1.
    destruct (inspect (cap_read w')) as [[[frame|] w1] e]; [|reflexivity].
    unfold detect_loop_clause_1_clause_2.
    destruct (inspect (loop_body p' st' frame w1)) as [[st2 w2] e2].
    etrans; [apply Hfg|]. f_equal. apply Peano_dec.le_unique.
Defined.


(** ** detect_scenes_dynamic (lines 8-81)

    Returns the scene list or the exception raised, and the final world. *)
Definition detect_scenes_dynamic (input : option Video) (p : Params)
  : result (list (Q * Q)) * World :=
  let w := cv2_VideoCapture input in
  if negb (isOpened (cap w)) then (Raise IOError, w) else
  let fps := CAP_PROP_FPS (cap w) in
  let total_frames := py_int (CAP_PROP_FRAME_COUNT (cap w)) in
  let detector0 :=
    AdaptiveDetector (adaptive_threshold p) (window_width p) (min_content_val p) 1 in
  let '(ret, w) := cap_read w in
  match ret with
  | None => let w := cap_release w in (Ok [], w)
  | Some prev_frame =>
      let st := {| detector := detector0; prev_gray := cvtColor prev_frame;
                   cut_frame_nums := []; frame_num := 1 |} in
      let '(st, w) := detect_loop p st w in
      let '(cuts, _, w) := call_post_process (detector st) (frame_num st) w in
      let cut_frame_nums' := cut_frame_nums st ++ cuts in
      let w := cap_release w in
      (boundary_builder cut_frame_nums' total_frames fps, w)
  end.

(** ** Reading a trace *)

(** The [(frame_num, frame)] arguments of the [process_frame] calls. *)
Definition process_calls (tr : list Event) : list (Z * Frame) :=
  omap (fun e => match e with
                 | EvProcessFrame n frame _ => Some (n, frame)
                 | _ => None
                 end) tr.

(** The indices given to [post_process]. *)
Definition flush_calls (tr : list Event) : list Z :=
  omap (fun e => match e with EvPostProcess n _ => Some n | _ => None end) tr.

(** The cut indices reported per frame, and those reported by the flush. *)
Definition incremental_cuts (tr : list Event) : list Z :=
  mbind (M := list)
    (fun e => match e with EvProcessFrame _ _ cuts => cuts | _ => [] end) tr.

Definition flush_cuts (tr : list Event) : list Z :=
  mbind (M := list)
    (fun e => match e with EvPostProcess _ cuts => cuts | _ => [] end) tr.

Definition is_open (e : Event) : bool :=
  match e with EvOpen true => true | _ => false end.
Definition is_release (e : Event) : bool :=
  match e with EvRelease => true | _ => false end.
Definition is_grabbed (e : Event) : bool :=
  match e with EvGrab true => true | _ => false end.
Definition is_loop_event (e : Event) : bool :=
  match e with EvRead _ | EvGrab _ | EvProcessFrame _ _ _ => true | _ => false end.

Definition count (f : Event -> bool) (tr : list Event) : nat :=
  length (List.filter f tr).


(** What a skip loop of [n] iterations emits when [len] frames are left:
    one successful grab per frame skipped and, when the frames run out first,
    the failed grab that ends it. *)
Definition grab_events (n len : nat) : list Event :=
  repeat (EvGrab true) (Nat.min n len)
  ++ (if decide (len < n)%nat then [EvGrab false] else []).

(** The indexing discipline of the detection loop over the [process_frame]
    calls: the call at hand carries index [n]; the next one, if any, carries
    [n + advance skip + 1], where [skip] is the skip decision of the frame at
    hand and [prev] the grayscale of the frame analysed before it.  The
    specification reads [advance skip = skip]; the loop makes
    [max 0 skip] grabs. *)
Fixpoint index_protocol (advance : Z -> Z) (p : Params) (prev : Gray) (n : Z)
    (calls : list (Z * Frame)) : Prop :=
  match calls with
  | [] => True
  | (m, frame) :: calls' =>
      let gray := cvtColor frame in
      let skip := skip_decision (absdiff_mean prev gray)
                    (motion_threshold p) (min_skip p) (max_skip p) in
      m = n /\ index_protocol advance p gray (n + advance skip + 1) calls'
  end.

End Driver.

(** ** The driver when a collaborator raises

    [cv2.cvtColor], [cv2.absdiff(...).mean()], the constructor of the
    detector and its two operations are calls into OpenCV and PySceneDetect,
    and each of them may raise instead of returning.  Lines 30-75 hold no
    [try]: what such a call raises leaves [detect_scenes_dynamic] at once.
    [E] is the type of what the collaborators raise. *)

Inductive call (E A : Type) : Type :=
| Returns (a : A)
| Throws (e : E).
Arguments Returns {E A} a.
Arguments Throws {E A} e.

Class RaisingVision (E Frame Gray : Type) : Type := {
  try_cvtColor : Frame -> call E Gray;
  try_absdiff_mean : Gray -> Gray -> call E Q
}.

Class RaisingDetector (E Frame D : Type) : Type := {
  try_AdaptiveDetector : Q -> Z -> Q -> Z -> call E D;
  try_process_frame : D -> Z -> Frame -> call E (list Z * D);
  try_post_process : D -> Z -> call E (list Z * D)
}.

(** How a call of [detect_scenes_dynamic] ends: it returns the scenes, it
    raises an exception of its own code, or an exception raised inside a
    collaborator propagates. *)
Inductive ending (E : Type) : Type :=
| Scenes (scenes : list (Q * Q))
| OwnError (e : exn)
| Foreign (e : E).
Arguments Scenes {E} scenes.
Arguments OwnError {E} e.
Arguments Foreign {E} e.

Section RaisingDriver.
Context {E Frame Gray D : Type} `{RaisingVision E Frame Gray} `{RaisingDetector E Frame D}.

(** Lines 57-71, each collaborator call either returning or raising. *)
Definition loop_body_raising (p : Params) (st : @Locals Gray D) (frame : Frame)
    (w : @World Frame) : call E (@Locals Gray D) * @World Frame :=
  match try_cvtColor frame with
  | Throws e => (Throws e, w)
  | Returns gray =>
      match try_absdiff_mean (prev_gray st) gray with
      | Throws e => (Throws e, w)
      | Returns motion_val =>
          let skip :=
            skip_decision motion_val (motion_threshold p) (min_skip p) (max_skip p) in
          match try_process_frame (detector st) (frame_num st) frame with
          | Throws e => (Throws e, w)
          | Returns (cuts, detector') =>
              let w := emit (EvProcessFrame (frame_num st) frame cuts) w in
              let cut_frame_nums' :=
                match cuts with
                | [] => cut_frame_nums st
                | _ => cut_frame_nums st ++ cuts
                end in
              let '(frame_num', w) := skip_loop (Z.to_nat skip) (frame_num st) w in
              (Returns {| detector := detector'; prev_gray := gray;
                          cut_frame_nums := cut_frame_nums'; frame_num := frame_num' + 1 |},
               w)
          end
      end
  end.

(** Lines 52-71: the [while] loop, left through [break] or by an exception. *)
#[local] Unset Equations With Funext.
#[local] Set Warnings "-solve_obligation_error".
Equations? detect_loop_raising (p : Params) (st : @Locals Gray D) (w : @World Frame)
  : call E (@Locals Gray D) * @World Frame
  by wf (length (stream (cap w))) lt :=
detect_loop_raising p st w with inspect (cap_read w) := {
  | exist _ (None, w1) _ => (Returns st, w1)
  | exist _ (Some frame, w1) Hread with inspect (loop_body_raising p st frame w1) := {
      | exist _ (Throws e, w2) _ => (Throws e, w2)
      | exist _ (Returns st', w2) Hbody => detect_loop_raising p st' w2 } }.
Proof.
  assert (Hskip : forall n fn (w0 : @World Frame),
             (length (stream (cap (skip_loop n fn w0).2))
              <= length (stream (cap w0)))%nat).
  { induction n as [|n IH]; intros fn w0; cbn; [lia|].
    unfold cap_grab. destruct (stream (cap w0)) as [|f rest] eqn:Hs; cbn.
    - rewrite Hs. cbn. lia.
    - etrans; [apply IH|]. cbn. lia. }
  unfold cap_read in Hread. destruct (stream (cap w)) as [|f rest] eqn:Hs; [discriminate|].
  injection Hread as <- <-.
  unfold loop_body_raising in Hbody.
  destruct (try_cvtColor f) as [gray|]; [|discriminate].
  destruct (try_absdiff_mean _ _) as [motion_val|]; [|discriminate].
  destruct (try_process_frame _ _ _) as [[cuts det']|]; [|discriminate].
  match type of Hbody with context [skip_loop ?n ?fn ?w0] =>
    specialize (Hskip n fn w0); destruct (skip_loop n fn w0) as [fn' w3] end.
  injection Hbody as _ <-. cbn in Hskip. cbn. lia.
Qed.
Next Obligation.
  unfold detect_loop_raising. rewrite Subterm.FixWf_unfold.
  - cbn [pr1 pr2]. unfold detect_loop_raising_functional, detect_loop_raising_unfold,
      detect_loop_raising_clause_1, detect_loop_raising_unfold_clause_1.
    destruct (inspect (cap_read w)) as [[[frame|] w1] e]; [|reflexivity].
    unfold detect_loop_raising_clause_1_clause_2,
      detect_loop_raising_unfold_clause_1_clause_2.
    destruct (inspect (loop_body_raising p st frame w1)) as [[[st2|e2] w2] e3];
      reflexivity.
  - intros [p' [st' w']] f g Hfg. cbn [pr1 pr2].
    unfold detect_loop_raising_functional, detect_loop_raising_clause_1.
    destruct (inspect (cap_read w')) as [[[frame|] w1] e]; [|reflexivity].
    unfold detect_loop_raising_clause_1_clause_2.
    destruct (inspect (loop_body_raising p' st' frame w1)) as [[[st2|e2] w2] e3];
      [|reflexivity].
    etrans; [apply Hfg|]. f_equal. apply Peano_dec.le_unique.
Defined.

(** Lines 30-81 with collaborators that may raise.  Returns how the call
    ends and the final world; the trace holds the calls on the capture and
    the detector calls that returned. *)
Definition detect_scenes_dynamic_raising (input : option (@Video Frame)) (p : Params)
  : ending E * @World Frame :=
  let w := cv2_VideoCapture input in
  if negb (isOpened (cap w)) then (OwnError IOError, w) else
  let fps := CAP_PROP_FPS (cap w) in
  let total_frames := py_int (CAP_PROP_FRAME_COUNT (cap w)) in
  match try_AdaptiveDetector
          (adaptive_threshold p) (window_width p) (min_content_val p) 1 with
  | Throws e => (Foreign e, w)
  | Returns detector0 =>
      let '(ret, w) := cap_read w in
      match ret with
      | None => let w := cap_release w in (Scenes [], w)
      | Some prev_frame =>
          match try_cvtColor prev_frame with
          | Throws e => (Foreign e, w)
          | Returns prev_gray0 =>
              let st := {| detector := detector0; prev_gray := prev_gray0;
                           cut_frame_nums := []; frame_num := 1 |} in
              match detect_loop_raising p st w with
              | (Throws e, w) => (Foreign e, w)
              | (Returns st, w) =>
                  match try_post_process (detector st) (frame_num st) with
                  | Throws e => (Foreign e, w)
                  | Returns (cuts, _) =>
                      let w := emit (EvPostProcess (frame_num st) cuts) w in
                      let cut_frame_nums' := cut_frame_nums st ++ cuts in
                      let w := cap_release w in
                      (match boundary_builder cut_frame_nums' total_frames fps with
                       | Ok scenes => Scenes scenes
                       | Raise e => OwnError e
                       end, w)
                  end
              end
          end
      end
  end.

End RaisingDriver.

(** Collaborators that always return, as raising collaborators. *)
Definition returning_vision (E : Type) {Frame Gray : Type} `{Vision Frame Gray}
  : RaisingVision E Frame Gray :=
  {| try_cvtColor := fun frame => Returns (cvtColor frame);
     try_absdiff_mean := fun a b => Returns (absdiff_mean a b) |}.

Definition returning_detector (E : Type) {Frame D : Type} `{Detector Frame D}
  : RaisingDetector E Frame D :=
  {| try_AdaptiveDetector := fun a w m l => Returns (AdaptiveDetector a w m l);
     try_process_frame := fun d n frame => Returns (process_frame d n frame);
     try_post_process := fun d n => Returns (post_process d n) |}.

(** The ending of a call whose collaborators always return. *)
Definition ending_of {E : Type} (r : result (list (Q * Q))) : ending E :=
  match r with Ok scenes => Scenes scenes | Raise e => OwnError e end.

(** ** A concrete source and detector for running the driver

    One-pixel frames: a frame is its brightness, the motion value is the
    absolute brightness difference.  The detector reports a cut at the index
    it is given when the brightness differs from the last frame it saw by at
    least [min_content_val]; its flush reports every cut once more. *)
Module Mock.

#[global] Instance vision : Vision Z Z :=
  {| cvtColor := fun frame => frame;
     absdiff_mean := fun a b => inject_Z (Z.abs (a - b)) |}.

Record state : Type := {
  min_content : Q;
  last_seen : option Z;
  reported : list Z
}.

Definition observe (d : state) (frame_num : Z) (frame : Z) : list Z * state :=
  let cuts :=
    match last_seen d with
    | Some g => if Qle_bool (min_content d) (inject_Z (Z.abs (frame - g)))
                then [frame_num] else []
    | None => []
    end in
  (cuts, {| min_content := min_content d; last_seen := Some frame;
            reported := reported d ++ cuts |}).

Definition flush (d : state) (frame_num : Z) : list Z * state :=
  (reported d, d).

#[global] Instance detector : Detector Z state :=
  {| AdaptiveDetector := fun _ _ min_content_val _ =>
       {| min_content := min_content_val; last_seen := None; reported := [] |};
     process_frame := observe;
     post_process := flush |}.

(** Six frames at 2 frames per second with a brightness jump at frame 3. *)
Definition clip : Video (Frame := Z) :=
  {| video_fps := 2; video_frame_count := 6;
     video_frames := [10; 10; 10; 200; 200; 200] |}.

Definition every_frame : Params :=
  {| motion_threshold := 5; min_skip := 0; max_skip := 0;
     adaptive_threshold := 3; window_width := 2; min_content_val := 15 |}.

(** One frame whose container reports a frame rate of 0. *)
Definition still : Video (Frame := Z) :=
  {| video_fps := 0; video_frame_count := 1; video_frames := [10] |}.

(** Three frames, each far from the one before, and a negative [min_skip]. *)
Definition flicker : Video (Frame := Z) :=
  {| video_fps := 2; video_frame_count := 3; video_frames := [10; 200; 10] |}.

Definition negative_skip : Params :=
  {| motion_threshold := 5; min_skip := -2; max_skip := 5;
     adaptive_threshold := 3; window_width := 2; min_content_val := 15 |}.

(** A detector that never reports a cut; not declared as an instance, it is
    passed explicitly where it is used. *)
Definition silent : Detector Z unit :=
  {| AdaptiveDetector := fun _ _ _ _ => tt;
     process_frame := fun d _ _ => ([], d);
     post_process := fun d _ => ([], d) |}.

End Mock.

(** ** A detector that raises

    The concrete vision, which never raises, and the concrete detector except
    that [process_frame] raises on a frame brighter than 100. *)
Module MockRaising.

Inductive foreign : Type := cv2_error | detector_error.

#[global] Instance vision : RaisingVision foreign Z Z := returning_vision foreign.

#[global] Instance detector : RaisingDetector foreign Z Mock.state :=
  {| try_AdaptiveDetector := fun a w m l => Returns (AdaptiveDetector a w m l);
     try_process_frame := fun d n frame =>
       if 100 <? frame then Throws detector_error else Returns (process_frame d n frame);
     try_post_process := fun d n => Returns (post_process d n) |}.

End MockRaising.

(** ** Vocabulary of the properties *)

(** The merge test of line 101 on one scene. *)
Definition is_short {T : Type} `{PyNum T} (min_duration : T) (s : T * T) : bool :=
  py_lt (py_sub s.2 s.1) min_duration.

(** Each scene ends exactly where the next one starts, over any number
    type. *)
Fixpoint Contiguous {T : Type} (scenes : list (T * T)) : Prop :=
  match scenes with
  | a :: (b :: _) as rest => a.2 = b.1 /\ Contiguous rest
  | _ => True
  end.

(** [a <= b] as the number type evaluates it. *)
Class PyOrd (T : Type) : Type := { py_le : T -> T -> bool }.


#[export] Instance PyOrd_Z : PyOrd Z := {| py_le := Z.leb |}.

#[export] Instance PyOrd_float : PyOrd float := {| py_le := PrimFloat.leb |}.



(** [sum(end - start)] with every difference taken exactly: [val] gives the
    exact value of an endpoint. *)
Definition exact_total {T : Type} (val : T -> Q) (scenes : list (T * T)) : Q :=
  foldr (fun s acc => (val s.2 - val s.1) + acc)%Q 0%Q scenes.

(** [sum(end - start)] as binary64 computes it, left to right from 0. *)
Definition float_total (scenes : list (float * float)) : float :=
  fold_left (fun acc s => PrimFloat.add acc (PrimFloat.sub s.2 s.1)) scenes 0%float.

(** The exact value of a finite binary64 number: sign, mantissa and
    exponent. *)
Definition float_exact (x : float) : Q :=
  match Prim2SF x with
  | S754_finite s m e => (inject_Z (if s then Z.neg m else Z.pos m) * Qpower 2 e)%Q
  | _ => 0%Q
  end.

(** A successful [cap.read()]. *)
Definition is_decoded {Frame : Type} (e : @Event Frame) : bool :=
  match e with EvRead true => true | _ => false end.

(** ** split_scenes (lines 109-128)

    The file system and the [ffmpeg] process are external: an interface over
    a state [S], each call returning the next state.  [subprocess_run] gives
    the return code of the command; with [check=True] a code other than 0
    raises [CalledProcessError].  Every call of the interface returns: an
    [OSError] raised by one of them (no [ffmpeg] on the path, a directory
    that cannot be removed or created) is not part of it.  Python's
    fixed-point formatting of a float ([.3f], [.2f]) is kept abstract as
    well: seconds are rationals here. *)

Class System (S : Type) : Type := {
  os_path_exists : S -> string -> bool;
  shutil_rmtree : S -> string -> S;
  os_makedirs : S -> string -> S;
  subprocess_run : S -> list string -> Z * S
}.

Class Formatter : Type := {
  format_3f : Q -> string;
  format_2f : Q -> string
}.

(** What the script does to the world outside, in program order. *)
Inductive OsEvent : Type :=
| OsExists (path : string) (found : bool)
| OsRmtree (path : string)
| OsMakedirs (path : string)
| OsPrint (text : string)
| OsRun (cmd : list string) (returncode : Z).

(** The exceptions of the script: those of the driver and the one of
    [subprocess.run(cmd, check=True)]. *)
Inductive script_exn : Type :=
| Builtin (e : exn)
| CalledProcessError (returncode : Z) (cmd : list string).

Inductive outcome : Type :=
| Returned
| Raised (e : script_exn).

(** [path.endswith("/")]; 47 is the character code of the separator. *)
Fixpoint ends_with_sep (path : string) : bool :=
  match path with
  | EmptyString => false
  | String c EmptyString => Ascii.eqb c (Ascii.ascii_of_nat 47)
  | String _ path' => ends_with_sep path'
  end.

(** [os.path.join(a, b)] of [posixpath]. *)
Definition os_path_join (a b : string) : string :=
  if String.prefix "/" b then b
  else if String.eqb a "" || ends_with_sep a then a +:+ b
  else a +:+ "/" +:+ b.

Section Split.
Context {S : Type} `{System S} `{Formatter}.

(** [os.path.join(output_dir, f"Scene_{idx}.mp4")]. *)
Definition output_file (output_dir : string) (idx : nat) : string :=
  os_path_join output_dir ("Scene_" +:+ pretty idx +:+ ".mp4").

(** The [cmd] list of lines 120-124. *)
Definition ffmpeg_cmd (input_path output_dir : string) (idx : nat) (scene : Q * Q)
  : list string :=
  ["ffmpeg"; "-y"; "-i"; input_path;
   "-ss"; format_3f scene.1; "-to"; format_3f scene.2;
   "-c"; "copy"; output_file output_dir idx].

(** The line printed before each transcode. *)
Definition splitting_message (idx : nat) (scene : Q * Q) : string :=
  "Splitting Scene " +:+ pretty idx +:+ ": " +:+ format_2f scene.1
  +:+ "s → " +:+ format_2f scene.2 +:+ "s".

(** [print("All scenes have been split and saved to:", output_dir)]. *)
Definition saved_message (output_dir : string) : string :=
  "All scenes have been split and saved to:" +:+ " " +:+ output_dir.

(** Lines 118-126: [for idx, (start, end) in enumerate(scenes, idx)].
    Returns the outcome, the final system state and the events emitted. *)
Fixpoint split_loop (input_path output_dir : string) (idx : nat)
    (scenes : list (Q * Q)) (sys : S) : outcome * S * list OsEvent :=
  match scenes with
  | [] => (Returned, sys, [])
  | scene :: scenes' =>
      let cmd := ffmpeg_cmd input_path output_dir idx scene in
      let '(returncode, sys) := subprocess_run sys cmd in
      let events := [OsPrint (splitting_message idx scene); OsRun cmd returncode] in
      if returncode =? 0 then
        let '(r, sys, events') :=
          split_loop input_path output_dir (Datatypes.S idx) scenes' sys in
        (r, sys, events ++ events')
      else (Raised (CalledProcessError returncode cmd), sys, events)
  end.

Definition split_scenes (input_path : string) (scenes : list (Q * Q))
    (output_dir : string) (sys : S) : outcome * S * list OsEvent :=
  let found := os_path_exists sys output_dir in
  let sys := if found then shutil_rmtree sys output_dir else sys in
  let reset := OsExists output_dir found
               :: (if found then [OsRmtree output_dir] else []) in
  let sys := os_makedirs sys output_dir in
  let '(r, sys, events) := split_loop input_path output_dir 1 scenes sys in
  match r with
  | Returned =>
      (Returned, sys,
       reset ++ [OsMakedirs output_dir] ++ events ++ [OsPrint (saved_message output_dir)])
  | Raised e => (Raised e, sys, reset ++ [OsMakedirs output_dir] ++ events)
  end.

(** ** The script body (lines 144-157), after argument parsing *)

Record Args : Type := {
  args_video_file : string;
  args_output_dir : string;
  args_params : Params;
  args_min_duration : Q
}.

End Split.

Section Script.
Context {Frame Gray D S : Type} `{Vision Frame Gray} `{Detector Frame D}
        `{System S} `{Formatter}.

(** [input] is what [args.video_file] holds, [None] when it cannot be
    opened. *)
Definition main (args : Args) (input : option (@Video Frame)) (sys : S)
  : outcome * @World Frame * S * list OsEvent :=
  let '(r, w) := detect_scenes_dynamic input (args_params args) in
  match r with
  | Raise e => (Raised (Builtin e), w, sys, [])
  | Ok scenes =>
      match merge_short_scenes scenes (args_min_duration args) with
      | Raise e => (Raised (Builtin e), w, sys, [])
      | Ok scenes =>
          let '(r, sys, events) :=
            split_scenes (args_video_file args) scenes (args_output_dir args) sys in
          (r, w, sys, events)
      end
  end.

End Script.

(** The commands run, with their return codes, and the files they write. *)
Definition runs (events : list OsEvent) : list (list string * Z) :=
  omap (fun e => match e with OsRun cmd rc => Some (cmd, rc) | _ => None end) events.

(** The events of the loop: a print or a command, nothing on the directory. *)
Definition is_output (e : OsEvent) : bool :=
  match e with OsPrint _ | OsRun _ _ => true | _ => false end.

(** The command of each scene, numbered from [idx]. *)
Fixpoint commands `{Formatter} (input_path output_dir : string) (idx : nat)
    (scenes : list (Q * Q)) : list (list string) :=
  match scenes with
  | [] => []
  | scene :: scenes' =>
      ffmpeg_cmd input_path output_dir idx scene
      :: commands input_path output_dir (Datatypes.S idx) scenes'
  end.

(** ** A concrete system for running the script

    [always_ok] has no output directory and an [ffmpeg] that always succeeds;
    [second_fails] counts the commands run and fails the second one with
    return code 1.  Seconds are printed as fractions. *)
Module MockSystem.

#[global] Instance always_ok : System unit :=
  {| os_path_exists := fun _ _ => false;
     shutil_rmtree := fun s _ => s;
     os_makedirs := fun s _ => s;
     subprocess_run := fun s _ => (0, s) |}.

#[global] Instance second_fails : System nat :=
  {| os_path_exists := fun _ _ => true;
     shutil_rmtree := fun s _ => s;
     os_makedirs := fun s _ => s;
     subprocess_run := fun s _ => (if (s =? 1)%nat then 1 else 0, Datatypes.S s) |}.

Definition fraction (x : Q) : string :=
  pretty (Qnum x) +:+ "/" +:+ pretty (Z.pos (Qden x)).

#[global] Instance fractions : Formatter :=
  {| format_3f := fraction; format_2f := fraction |}.

Definition args : Args :=
  {| args_video_file := "clip.mp4"; args_output_dir := "out";
     args_params := Mock.every_frame; args_min_duration := 1 |}.

(** A source that opens and holds no frame. *)
Definition blank : Video (Frame := Z) :=
  {| video_fps := 2; video_frame_count := 0; video_frames := [] |}.

End MockSystem.

(** * Proofs *)

(** ** Indexing at the ends of a list *)

Lemma py_index_last {A : Type} (l : list A) (x : A) :
  py_index (l ++ [x]) (-1) = Ok (length l).
Proof.
  unfold py_index. rewrite length_app. cbn [length Z.ltb Z.compare].
  replace (-1 + Z.of_nat (length l + 1)%nat) with (Z.of_nat (length l)) by lia.
  rewrite (proj2 (Z.leb_le _ _)), (proj2 (Z.ltb_lt _ _)) by lia.
  cbn. by rewrite Nat2Z.id.
Qed.

Lemma getitem_last {A : Type} (l : list A) (x : A) :
  getitem (l ++ [x]) (-1) = Ok x.
Proof.
  unfold getitem. rewrite py_index_last. cbn.
  by rewrite lookup_app_r, Nat.sub_diag.
Qed.

Lemma setitem_last {A : Type} (l : list A) (x y : A) :
  setitem (l ++ [x]) (-1) y = Ok (l ++ [y]).
Proof.
  unfold setitem. rewrite py_index_last. cbn.
  by rewrite insert_app_r_alt, Nat.sub_diag.
Qed.

Lemma getitem_head {A : Type} (x : A) (l : list A) : getitem (x :: l) 0 = Ok x.
Proof.
  unfold getitem, py_index. cbn [Z.ltb Z.compare Z.leb length].
  rewrite (proj2 (Z.ltb_lt _ _)) by lia. reflexivity.
Qed.

(** ** The merge loop against the specification's wording *)

Section MergeFacts.
Context {T : Type} `{PyNum T}.
Implicit Types (scenes rest merged : list (@Scene T)) (cur first : @Scene T) (m : T).

Lemma merge_loop_absorb m rest merged cur :
  merge_loop m rest (merged ++ [cur]) = Ok (merged ++ absorb m cur rest).
Proof.
  revert merged cur. induction rest as [|[start end_] rest IH]; intros merged [ps pe].
  - reflexivity.
  - cbn [merge_loop absorb]. rewrite getitem_last. cbn [result_bind].
    destruct (py_lt (py_sub end_ start) m).
    + rewrite setitem_last. cbn [result_bind fst]. apply IH.
    + rewrite IH. by rewrite <- (assoc_L (++)).
Qed.

Lemma merge_short_scenes_refines scenes m :
  merge_short_scenes scenes m = Ok (scene_merger scenes m).
Proof.
  destruct scenes as [|first rest]; [reflexivity|].
  unfold merge_short_scenes. rewrite getitem_head. cbn [result_bind skipn scene_merger].
  apply (merge_loop_absorb m rest [] first).
Qed.

Lemma merge_loop_app m rest1 rest2 merged :
  merge_loop m (rest1 ++ rest2) merged
  = let? merged' := merge_loop m rest1 merged in merge_loop m rest2 merged'.
Proof.
  revert merged. induction rest1 as [|[start end_] rest1 IH]; intros merged.
  - reflexivity.
  - cbn [app merge_loop]. destruct (getitem merged (-1)) as [[ps pe]|e]; [|reflexivity].
    cbn [result_bind]. destruct (py_lt _ _).
    + destruct (setitem merged (-1) (ps, end_)); [|reflexivity]. cbn [result_bind]. apply IH.
    + apply IH.
Qed.

End MergeFacts.

(** ** Rational comparisons *)

Lemma Qltb_lt (x y : Q) : Qltb x y = true <-> (x < y)%Q.
Proof.
  unfold Qltb. rewrite Qlt_alt. destruct (x ?= y)%Q; split; congruence.
Qed.

Lemma Qltb_ge (x y : Q) : Qltb x y = false <-> (y <= x)%Q.
Proof.
  rewrite <- not_true_iff_false, Qltb_lt. split; [apply Qnot_lt_le | apply Qle_not_lt].
Qed.

(** ** What merging keeps: first start, last end *)

Section MergeSpan.
Context {T : Type} `{PyNum T}.
Implicit Types (rest : list (@Scene T)) (cur : @Scene T) (m : T).

Lemma absorb_head m cur rest :
  exists c, head (absorb m cur rest) = Some c /\ c.1 = cur.1.
Proof.
  revert cur. induction rest as [|[start end_] rest IH]; intros cur; cbn [absorb].
  - by exists cur.
  - destruct (py_lt _ _); [|by exists cur].
    destruct (IH (cur.1, end_)) as (c & Hc & Hc1). by exists c.
Qed.

Lemma absorb_last m cur rest :
  exists c l, last (absorb m cur rest) = Some c /\ last (cur :: rest) = Some l /\ c.2 = l.2.
Proof.
  revert cur. induction rest as [|[start end_] rest IH]; intros cur; cbn [absorb].
  - by exists cur, cur.
  - destruct (py_lt _ _).
    + destruct (IH (cur.1, end_)) as (c & l & Hc & Hl & Hcl). exists c.
      destruct rest as [|r rest]; [|by exists l].
      cbn in Hl. injection Hl as <-. by exists (start, end_).
    + destruct (IH (start, end_)) as (c & l & Hc & Hl & Hcl). exists c, l.
      split; [|done]. rewrite last_cons, Hc. done.
Qed.

End MergeSpan.

(** ** Durations under merging *)

(** Absorbing scenes of a contiguous list leaves the exact total alone,
    whichever scenes the merge test picks. *)
Lemma absorb_exact_total {T : Type} `{PyNum T} (val : T -> Q) (m : T)
    (cur : T * T) (rest : list (T * T)) :
  Contiguous (cur :: rest) ->
  (exact_total val (absorb m cur rest) == exact_total val (cur :: rest))%Q.
Proof.
  revert cur. induction rest as [|[start end_] rest IH]; intros [cs ce] Hc.
  - reflexivity.
  - destruct Hc as [Hce Hrest]. cbn [fst snd] in Hce. subst start.
    cbn [absorb]. destruct (py_lt _ _).
    + rewrite IH.
      * cbn [exact_total foldr fst snd]. lra.
      * destruct rest; [done|]. exact Hrest.
    + cbn [exact_total foldr]. fold (exact_total val (absorb m (ce, end_) rest)).
      rewrite (IH _ Hrest). cbn [exact_total foldr fst snd]. lra.
Qed.



Lemma absorb_fixed {T : Type} `{PyNum T} (m : T) (cur : @Scene T) (tail : list (@Scene T)) :
  Forall (fun s => py_lt (py_sub s.2 s.1) m = false) tail ->
  absorb m cur tail = cur :: tail.
Proof.
  revert cur. induction tail as [|[start end_] tail IH]; intros cur Hall.
  - reflexivity.
  - inversion Hall as [|? ? Hs Htail]; subst. cbn [absorb]. cbn [fst snd] in Hs.
    rewrite Hs. f_equal. by apply IH.
Qed.

(** * The Scene Merger *)

(** C2. [merge_short_scenes] returns the empty list on empty input and the
    first scene verbatim when it is alone, whatever its duration; a further
    scene [(start, end_)] is tested on its own duration [end_ - start]: below
    [min_duration] it replaces the last merged scene [(prev_start, prev_end)]
    by [(prev_start, end_)], otherwise it is appended unchanged.  The function
    agrees with the specification's wording [scene_merger] on every input, and
    [[(0,2),(2,3),(3,10)]] with [min_duration = 2] gives [[(0,3),(3,10)]],
    over integers and over rationals. *)
Theorem merge_short_scenes_policy :
  (forall (T : Type) (N : PyNum T) (min_duration : T),
     merge_short_scenes (@nil (@Scene T)) min_duration = Ok [])
  /\ (forall (T : Type) (N : PyNum T) (first : @Scene T) (min_duration : T),
     merge_short_scenes [first] min_duration = Ok [first])
  /\ (forall (T : Type) (N : PyNum T) (first : @Scene T) (rest : list (@Scene T))
            (start end_ min_duration : T),
     merge_short_scenes (first :: rest ++ [(start, end_)]) min_duration
     = let? merged := merge_short_scenes (first :: rest) min_duration in
       let? prev := getitem merged (-1) in
       if py_lt (py_sub end_ start) min_duration
       then setitem merged (-1) (prev.1, end_)
       else Ok (merged ++ [(start, end_)]))
  /\ (forall (T : Type) (N : PyNum T) (scenes : list (@Scene T)) (min_duration : T),
     merge_short_scenes scenes min_duration = Ok (scene_merger scenes min_duration))
  /\ merge_short_scenes [(0, 2); (2, 3); (3, 10)]%Z 2%Z = Ok [(0, 3); (3, 10)]%Z
  /\ merge_short_scenes [(0, 2); (2, 3); (3, 10)]%Q 2%Q = Ok [(0, 3); (3, 10)]%Q
  /\ merge_short_scenes [(0, 1); (1, 10)]%Q 2%Q = Ok [(0, 1); (1, 10)]%Q.
Proof.
  split; [reflexivity|]. split; [|split; [|split]].
  - intros T N first m. apply (merge_short_scenes_refines [first] m).
  - intros T N first rest start end_ m.
    unfold merge_short_scenes. rewrite !getitem_head. cbn [result_bind skipn]. rewrite !drop_0.
    rewrite merge_loop_app.
    destruct (merge_loop m rest [first]) as [merged|e]; [|reflexivity].
    cbn [result_bind merge_loop].
    destruct (getitem merged (-1)) as [[ps pe]|e]; [|reflexivity].
    cbn [result_bind fst]. destruct (py_lt _ _); [|reflexivity].
    by destruct (setitem merged (-1) (ps, end_)).
  - intros T N scenes m. apply merge_short_scenes_refines.
  - repeat split; vm_compute; reflexivity.
Qed.

(** C9. On a non-empty scene list the merger's output is non-empty, starts
    where the input starts and ends where the input ends. *)
Theorem merge_short_scenes_span {T : Type} `{PyNum T}
    (scenes : list (@Scene T)) (min_duration : T) :
  scenes <> [] ->
  exists out first_in last_in first_out last_out,
    merge_short_scenes scenes min_duration = Ok out
    /\ out <> []
    /\ head scenes = Some first_in /\ last scenes = Some last_in
    /\ head out = Some first_out /\ last out = Some last_out
    /\ first_out.1 = first_in.1
    /\ last_out.2 = last_in.2.
Proof.
  intros Hne. destruct scenes as [|first rest]; [done|].
  destruct (absorb_head min_duration first rest) as (c & Hc & Hc1).
  destruct (absorb_last min_duration first rest) as (c' & l & Hc' & Hl & Hcl).
  exists (absorb min_duration first rest), first, l, c, c'.
  rewrite merge_short_scenes_refines. cbn [scene_merger].
  repeat split; try done.
  intros Hnil. rewrite Hnil in Hc. discriminate.
Qed.

Lemma merge_short_scenes_span_witness :
  [(0, 2); (2, 3); (3, 10)]%Q <> []
  /\ exists out first_in last_in first_out last_out,
       merge_short_scenes [(0, 2); (2, 3); (3, 10)]%Q 2%Q = Ok out
       /\ out <> []
       /\ head [(0, 2); (2, 3); (3, 10)]%Q = Some first_in
       /\ last [(0, 2); (2, 3); (3, 10)]%Q = Some last_in
       /\ head out = Some first_out /\ last out = Some last_out
       /\ first_out.1 = first_in.1
       /\ last_out.2 = last_in.2.
Proof.
  split; [discriminate|].
  apply (merge_short_scenes_span [(0, 2); (2, 3); (3, 10)]%Q 2%Q). discriminate.
Defined.

(** C3, as the specification states it, fails in two ways, both in the
    program's own binary64 arithmetic.  A gap between two scenes is absorbed
    when the second one is merged: [[(0,10),(20,21)]] with [min_duration = 2]
    gives [[(0,21)]], and the sum goes from 11 to 21.  And on a contiguous
    list the computed sum moves with the rounding of each difference:
    [[(0,0.2),(0.2,0.9)]] with [min_duration = 1] gives [[(0,0.9)]], and the
    sum goes from 0.8999999999999999 to 0.9.  (0.2 is [0x1.999999999999ap-3],
    0.9 is [0x1.ccccccccccccdp-1], 0.8999999999999999 is
    [0x1.cccccccccccccp-1].) *)
Lemma merge_total_duration_counterexample :
  (merge_short_scenes [(0, 10); (20, 21)]%float 2%float = Ok [(0, 21)]%float
   /\ float_total [(0, 10); (20, 21)]%float = 11%float
   /\ float_total [(0, 21)]%float = 21%float
   /\ PrimFloat.eqb (float_total [(0, 21)]%float)
        (float_total [(0, 10); (20, 21)]%float) = false)
  /\ (Contiguous [(0, 0x1.999999999999ap-3); (0x1.999999999999ap-3, 0x1.ccccccccccccdp-1)]%float
      /\ merge_short_scenes
           [(0, 0x1.999999999999ap-3); (0x1.999999999999ap-3, 0x1.ccccccccccccdp-1)]%float
           1%float
         = Ok [(0, 0x1.ccccccccccccdp-1)]%float
      /\ float_total
           [(0, 0x1.999999999999ap-3); (0x1.999999999999ap-3, 0x1.ccccccccccccdp-1)]%float
         = 0x1.cccccccccccccp-1%float
      /\ float_total [(0, 0x1.ccccccccccccdp-1)]%float = 0x1.ccccccccccccdp-1%float
      /\ PrimFloat.eqb
           (float_total [(0, 0x1.ccccccccccccdp-1)]%float)
           (float_total
              [(0, 0x1.999999999999ap-3);
               (0x1.999999999999ap-3, 0x1.ccccccccccccdp-1)]%float)
         = false).
Proof. split; split_and!; try done; vm_compute; reflexivity. Qed.

(** The runs of C2 over IEEE binary64, where these numbers are exact. *)
Example merge_short_scenes_binary64 :
  merge_short_scenes [(0, 2); (2, 3); (3, 10)]%float 2%float
  = Ok [(0, 3); (3, 10)]%float.
Proof. vm_compute. reflexivity. Qed.

(** C3, amended.  For a contiguous scene list (each scene ends where the next
    one starts), over any number type and whichever scenes the merge test
    picks, the merger's output has the same total duration as its input when
    every duration [end - start] is taken exactly, without rounding; [val]
    gives the exact value of an endpoint. *)
Theorem merge_short_scenes_total_duration {T : Type} `{PyNum T} (val : T -> Q)
    (scenes : list (T * T)) (min_duration : T) :
  Contiguous scenes ->
  exists out,
    merge_short_scenes scenes min_duration = Ok out
    /\ (exact_total val out == exact_total val scenes)%Q.
Proof.
  intros Hc. exists (scene_merger scenes min_duration).
  split; [apply merge_short_scenes_refines|].
  destruct scenes as [|first rest]; [reflexivity|].
  by apply absorb_exact_total.
Qed.

Lemma merge_short_scenes_total_duration_witness :
  Contiguous [(0, 0x1.999999999999ap-3); (0x1.999999999999ap-3, 0x1.ccccccccccccdp-1)]%float
  /\ exists out,
       merge_short_scenes
         [(0, 0x1.999999999999ap-3); (0x1.999999999999ap-3, 0x1.ccccccccccccdp-1)]%float
         1%float = Ok out
       /\ (exact_total float_exact out
           == exact_total float_exact
                [(0, 0x1.999999999999ap-3);
                 (0x1.999999999999ap-3, 0x1.ccccccccccccdp-1)]%float)%Q.
Proof.
  split; [by split|].
  apply (merge_short_scenes_total_duration float_exact
           [(0, 0x1.999999999999ap-3); (0x1.999999999999ap-3, 0x1.ccccccccccccdp-1)]%float
           1%float).
  by split.
Defined.



(** The same over IEEE binary64 on two inputs.  On [[(0,0.1),(0.1,5.1)]]
    with [min_duration = 5] the computed duration of the second scene is
    exactly 5, so both scenes are kept, though the exact difference of the
    two endpoints is below 5.  (0.1 is [0x1.999999999999ap-4], 5.1 is
    [0x1.4666666666666p+2].)  On [[(0,2),(2,3),(3,10),(10,11)]] two scenes
    are absorbed. *)
Example merge_short_scenes_idempotent_binary64 :
  (merge_short_scenes
     [(0, 0x1.999999999999ap-4); (0x1.999999999999ap-4, 0x1.4666666666666p+2)]%float
     5%float
   = Ok [(0, 0x1.999999999999ap-4); (0x1.999999999999ap-4, 0x1.4666666666666p+2)]%float
   /\ PrimFloat.sub 0x1.4666666666666p+2%float 0x1.999999999999ap-4%float = 5%float
   /\ (float_exact 0x1.4666666666666p+2%float - float_exact 0x1.999999999999ap-4%float
       < 5)%Q)
  /\ merge_short_scenes [(0, 2); (2, 3); (3, 10); (10, 11)]%float 2%float
     = Ok [(0, 3); (3, 11)]%float
  /\ merge_short_scenes [(0, 3); (3, 11)]%float 2%float = Ok [(0, 3); (3, 11)]%float.
Proof. split_and!; vm_compute; reflexivity. Qed.

(** * The Boundary Builder *)

Lemma getitem_lookup {A : Type} (l : list A) (i : nat) (x : A) :
  l !! i = Some x -> getitem l (Z.of_nat i) = Ok x.
Proof.
  intros Hl. pose proof (lookup_lt_Some _ _ _ Hl) as Hlt.
  unfold getitem, py_index.
  rewrite (proj2 (Z.ltb_ge _ _)), (proj2 (Z.leb_le _ _)), (proj2 (Z.ltb_lt _ _)) by lia.
  cbn. by rewrite Nat2Z.id, Hl.
Qed.

Lemma truediv_nonzero (a : Z) (fps : Q) :
  ~ (fps == 0)%Q -> truediv a fps = Ok (inject_Z a / fps)%Q.
Proof.
  intros Hfps. unfold truediv. destruct (Qeq_bool fps 0) eqn:Hz; [|reflexivity].
  by apply Qeq_bool_iff in Hz.
Qed.

Lemma truediv_zero (a : Z) (fps : Q) :
  (fps == 0)%Q -> truediv a fps = Raise ZeroDivisionError.
Proof.
  intros Hfps. unfold truediv. by rewrite (proj2 (Qeq_bool_iff _ _) Hfps).
Qed.

Lemma adjacent_pairs_cons {A : Type} (a b : A) (l : list A) :
  adjacent_pairs (a :: b :: l) = (a, b) :: adjacent_pairs (b :: l).
Proof. reflexivity. Qed.

Lemma adjacent_pairs_length {A : Type} (l : list A) :
  length (adjacent_pairs l) = (length l - 1)%nat.
Proof. unfold adjacent_pairs. rewrite length_zip, length_drop. lia. Qed.

Lemma adjacent_pairs_lookup {A : Type} (l : list A) (i : nat) (x y : A) :
  adjacent_pairs l !! i = Some (x, y) -> l !! i = Some x /\ l !! S i = Some y.
Proof.
  revert i. induction l as [|a [|b l] IH]; intros i; [done..|].
  rewrite adjacent_pairs_cons. destruct i as [|i]; cbn.
  - intros [= -> ->]. done.
  - intros Hi. apply (IH i Hi).
Qed.

Lemma adjacent_pairs_last {A : Type} (l : list A) (x t : A) :
  last l = Some x -> last (adjacent_pairs (l ++ [t])) = Some (x, t).
Proof.
  induction l as [|a [|b l] IH]; [done| |].
  - intros [= ->]. reflexivity.
  - rewrite last_cons_cons. intros Hl.
    change ((a :: b :: l) ++ [t]) with (a :: b :: (l ++ [t])).
    rewrite adjacent_pairs_cons.
    specialize (IH Hl). change ((b :: l) ++ [t]) with (b :: (l ++ [t])) in IH.
    rewrite last_cons, IH. done.
Qed.

(** The comprehension walks the boundary list pair by pair; [pre] is the part
    of the list already behind the window. *)
Lemma comprehension_scene_at (fps : Q) (pre l : list Z) :
  ~ (fps == 0)%Q ->
  comprehension (scene_at (pre ++ l) fps)
    (Z.of_nat <$> seq (length pre) (length l - 1))
  = Ok (to_seconds fps <$> adjacent_pairs l).
Proof.
  intros Hfps. revert pre. induction l as [|a [|b l] IH]; intros pre; [done..|].
  replace (length (a :: b :: l) - 1)%nat with (S (length l)) by (cbn; lia).
  cbn [seq fmap list_fmap comprehension].
  assert (scene_at (pre ++ a :: b :: l) fps (Z.of_nat (length pre))
          = Ok (to_seconds fps (a, b))) as ->.
  { unfold scene_at.
    rewrite (getitem_lookup _ _ a) by (by rewrite lookup_app_r, Nat.sub_diag).
    cbn [result_bind]. rewrite truediv_nonzero by done. cbn [result_bind].
    replace (Z.of_nat (length pre) + 1) with (Z.of_nat (S (length pre))) by lia.
    rewrite (getitem_lookup _ _ b).
    2:{ rewrite lookup_app_r by lia. by replace (S (length pre) - length pre)%nat with 1%nat by lia. }
    cbn [result_bind]. by rewrite truediv_nonzero. }
  cbn [result_bind]. specialize (IH (pre ++ [a])).
  rewrite <- (assoc_L (++)), length_app in IH. cbn [app length] in IH.
  replace (length pre + 1)%nat with (S (length pre)) in IH by lia.
  replace (S (length l) - 1)%nat with (length l) in IH by lia.
  change (list_fmap nat Z Z.of_nat) with (fmap (M:=list) Z.of_nat).
  rewrite IH. cbn [result_bind]. by rewrite adjacent_pairs_cons.
Qed.

Lemma boundary_builder_nonzero (cuts : list Z) (total_frames : Z) (fps : Q) :
  ~ (fps == 0)%Q ->
  boundary_builder cuts total_frames fps
  = Ok (to_seconds fps <$> adjacent_pairs (scene_boundaries cuts total_frames)).
Proof.
  intros Hfps. unfold boundary_builder, py_range.
  fold (scene_boundaries cuts total_frames).
  replace (Z.to_nat (Z.of_nat (length (scene_boundaries cuts total_frames)) - 1))
    with (length (scene_boundaries cuts total_frames) - 1)%nat by lia.
  by apply (comprehension_scene_at fps []).
Qed.

Lemma boundary_builder_zero (cuts : list Z) (total_frames : Z) (fps : Q) :
  (fps == 0)%Q ->
  boundary_builder cuts total_frames fps = Raise ZeroDivisionError.
Proof.
  intros Hfps. unfold boundary_builder, py_range.
  set (sorted := py_sorted (py_set cuts)).
  rewrite length_app, length_app, Nat2Z.inj_add. cbn [length].
  replace (Z.to_nat (Z.of_nat 1 + Z.of_nat (length sorted + 1) - 1))
    with (S (length sorted)) by lia.
  cbn [seq fmap list_fmap comprehension]. unfold scene_at at 1.
  change (Z.of_nat 0) with 0. cbn [app]. rewrite getitem_head. cbn [result_bind].
  by rewrite truediv_zero.
Qed.

(** [sorted(set(l))] is strictly ascending and has the members of [l]. *)
Lemma strictly_sorted (l : list Z) :
  Sorted Z.le l -> NoDup l -> StronglySorted Z.lt l.
Proof.
  intros Hs Hn. apply Sorted_StronglySorted in Hs; [|apply _].
  induction Hs as [|x l Hs IH Hall]; [constructor|].
  apply NoDup_cons in Hn as [Hx Hn]. constructor; [by apply IH|].
  apply Forall_forall. intros y Hy.
  pose proof (proj1 (Forall_forall _ _) Hall y Hy) as Hle.
  assert (x <> y) by (intros ->; done). lia.
Qed.

Lemma py_sorted_set_elem_of (l : list Z) (x : Z) :
  x ∈ py_sorted (py_set l) <-> x ∈ l.
Proof.
  unfold py_sorted, py_set.
  rewrite merge_sort_Permutation, elem_of_elements, elem_of_list_to_set. done.
Qed.

Lemma py_sorted_set_NoDup (l : list Z) : NoDup (py_sorted (py_set l)).
Proof.
  unfold py_sorted. rewrite merge_sort_Permutation. apply NoDup_elements.
Qed.

Lemma py_sorted_set_ascending (l : list Z) : StronglySorted Z.lt (py_sorted (py_set l)).
Proof.
  apply strictly_sorted; [|apply py_sorted_set_NoDup].
  unfold py_sorted. apply Sorted_merge_sort. apply _.
Qed.

(** C1. For a positive frame rate the Boundary Builder returns the adjacent
    pairs of [[0] ++ sorted(set(cuts)) ++ [total_frames]], each bound divided
    by [fps]: one scene less than there are boundaries, each scene ending
    exactly where the next starts, the first starting at 0 and the last ending
    at [total_frames / fps]. *)
Theorem boundary_builder_scenes (cuts : list Z) (total_frames : Z) (fps : Q) :
  (0 < fps)%Q ->
  exists scenes,
    boundary_builder cuts total_frames fps = Ok scenes
    /\ scenes = to_seconds fps <$> adjacent_pairs (scene_boundaries cuts total_frames)
    /\ length scenes = (length (scene_boundaries cuts total_frames) - 1)%nat
    /\ (forall i a b, scenes !! i = Some a -> scenes !! S i = Some b -> a.2 = b.1)
    /\ (exists first, head scenes = Some first /\ (first.1 == 0)%Q)
    /\ (exists final, last scenes = Some final
                      /\ final.2 = (inject_Z total_frames / fps)%Q).
Proof.
  intros Hfps.
  exists (to_seconds fps <$> adjacent_pairs (scene_boundaries cuts total_frames)).
  split; [apply boundary_builder_nonzero; lra|]. split; [reflexivity|].
  split; [by rewrite length_fmap, adjacent_pairs_length|].
  split; [|split].
  - intros i a b Ha Hb.
    apply list_lookup_fmap_Some_1 in Ha as ([x y] & -> & Ha).
    apply list_lookup_fmap_Some_1 in Hb as ([y' z] & -> & Hb).
    apply adjacent_pairs_lookup in Ha as [_ Hy].
    apply adjacent_pairs_lookup in Hb as [Hy' _].
    cbn. congruence.
  - unfold scene_boundaries.
    destruct (py_sorted (py_set cuts) ++ [total_frames]) as [|b l] eqn:Hl.
    { by destruct (py_sorted (py_set cuts)). }
    exists (to_seconds fps (0, b)). split; [reflexivity|].
    cbn. unfold Qdiv. apply Qmult_0_l.
  - exists (to_seconds fps (default 0 (last (0 :: py_sorted (py_set cuts))), total_frames)).
    split; [|reflexivity]. rewrite fmap_last. unfold scene_boundaries.
    change ([0] ++ py_sorted (py_set cuts) ++ [total_frames])
      with ((0 :: py_sorted (py_set cuts)) ++ [total_frames]).
    destruct (last (0 :: py_sorted (py_set cuts))) as [x|] eqn:Hlast.
    + by rewrite (adjacent_pairs_last _ x total_frames Hlast).
    + by apply last_None in Hlast.
Qed.

Lemma boundary_builder_scenes_witness :
  (0 < 30)%Q
  /\ exists scenes,
       boundary_builder [210; 90; 210] 300 30 = Ok scenes
       /\ scenes = to_seconds 30 <$> adjacent_pairs (scene_boundaries [210; 90; 210] 300)
       /\ length scenes = (length (scene_boundaries [210; 90; 210]%Z 300%Z) - 1)%nat
       /\ (forall i a b, scenes !! i = Some a -> scenes !! S i = Some b -> a.2 = b.1)
       /\ (exists first, head scenes = Some first /\ (first.1 == 0)%Q)
       /\ (exists final, last scenes = Some final /\ final.2 = (inject_Z 300 / 30)%Q).
Proof.
  split; [reflexivity|].
  apply (boundary_builder_scenes [210; 90; 210] 300 30). reflexivity.
Defined.

(** The specification's end-to-end figures: cuts at 90 and 210 in 300 frames
    at 30 frames per second. *)
Example boundary_builder_300_frames :
  scene_boundaries [210; 90; 210] 300 = [0; 90; 210; 300]
  /\ boundary_builder [210; 90; 210] 300 30
     = Ok [(0 # 30, 90 # 30); (90 # 30, 210 # 30); (210 # 30, 300 # 30)]%Q.
Proof. split; vm_compute; reflexivity. Qed.

(** * The detection driver *)

Section DriverFacts.
Context {Frame Gray D : Type} `{Vision Frame Gray} `{Detector Frame D}.
Implicit Types (w : @World Frame) (st : @Locals Gray D) (tr : list (@Event Frame)).

(** The loop equation of the [while] loop. *)
Lemma detect_loop_eq (p : Params) st w :
  detect_loop p st w
  = match cap_read w with
    | (None, w1) => (st, w1)
    | (Some frame, w1) =>
        let '(st', w2) := loop_body p st frame w1 in detect_loop p st' w2
    end.
Proof.
  rewrite detect_loop_equation_1.
  destruct (inspect (cap_read w)) as [[[frame|] w1] Heq].
  - etrans; [|by rewrite Heq].
    rewrite detect_loop_clause_1_equation_1.
    destruct (inspect (loop_body p st frame w1)) as [[st' w2] Hb].
    etrans; [|by rewrite Hb]. simp detect_loop. reflexivity.
  - etrans; [|by rewrite Heq]. by rewrite detect_loop_clause_1_equation_2.
Qed.

(** ** Reading traces piecewise *)

Lemma process_calls_app tr1 tr2 :
  process_calls (tr1 ++ tr2) = process_calls tr1 ++ process_calls tr2.
Proof. apply omap_app. Qed.

Lemma flush_calls_app tr1 tr2 :
  flush_calls (tr1 ++ tr2) = flush_calls tr1 ++ flush_calls tr2.
Proof. apply omap_app. Qed.

Lemma incremental_cuts_app tr1 tr2 :
  incremental_cuts (tr1 ++ tr2) = incremental_cuts tr1 ++ incremental_cuts tr2.
Proof. apply bind_app. Qed.

Lemma flush_cuts_app tr1 tr2 :
  flush_cuts (tr1 ++ tr2) = flush_cuts tr1 ++ flush_cuts tr2.
Proof. apply bind_app. Qed.

Lemma count_app (f : @Event Frame -> bool) tr1 tr2 :
  count f (tr1 ++ tr2) = (count f tr1 + count f tr2)%nat.
Proof. unfold count. by rewrite List.filter_app, length_app. Qed.

Lemma loop_events_quiet tr :
  Forall (fun e => is_loop_event e = true) tr ->
  flush_calls tr = [] /\ flush_cuts tr = []
  /\ count is_release tr = 0%nat /\ count is_open tr = 0%nat.
Proof.
  induction 1 as [|e tr He _ (IH1 & IH2 & IH3 & IH4)]; [done|].
  destruct e as [| | | | |]; try discriminate He;
    change (?e :: tr) with ([e] ++ tr);
    rewrite flush_calls_app, flush_cuts_app, !count_app, IH1, IH2, IH3, IH4; done.
Qed.

Lemma grab_events_loop (n len : nat) :
  Forall (fun e : @Event Frame => is_loop_event e = true) (grab_events n len).
Proof.
  unfold grab_events. apply Forall_app. split.
  - apply Forall_forall. intros e He. apply list_elem_of_In, repeat_spec in He. by subst.
  - case_decide; repeat constructor.
Qed.

Lemma grab_events_calls (n len : nat) :
  process_calls (@grab_events Frame n len) = []
  /\ incremental_cuts (@grab_events Frame n len) = []
  /\ count is_grabbed (@grab_events Frame n len) = Nat.min n len.
Proof.
  unfold grab_events. rewrite process_calls_app, incremental_cuts_app, count_app.
  assert (forall k, process_calls (repeat (@EvGrab Frame true) k) = []
                    /\ incremental_cuts (repeat (@EvGrab Frame true) k) = []
                    /\ count is_grabbed (repeat (@EvGrab Frame true) k) = k) as Hrep.
  { induction k as [|k (IH1 & IH2 & IH3)]; [done|]. cbn [repeat].
    change (?e :: ?l) with ([e] ++ l).
    rewrite process_calls_app, incremental_cuts_app, count_app, IH1, IH2, IH3. done. }
  destruct (Hrep (Nat.min n len)) as (-> & -> & ->).
  case_decide; cbn; repeat split; lia.
Qed.

(** ** The skip loop in closed form *)

Lemma skip_loop_closed (n : nat) (fn : Z) w :
  skip_loop n fn w
  = (fn + Z.of_nat (Nat.min n (length (stream (cap w)))),
     {| cap := cap (set_stream w (drop n (stream (cap w))));
        trace := trace w ++ grab_events n (length (stream (cap w))) |}).
Proof.
  revert fn w. induction n as [|n IH]; intros fn [[o f c s] tr]; cbn [skip_loop].
  - unfold grab_events, set_stream. cbn. rewrite Z.add_0_r, app_nil_r. done.
  - unfold cap_grab. cbn [cap stream]. destruct s as [|frame rest].
    + unfold grab_events, emit, set_stream. cbn. by rewrite Z.add_0_r.
    + cbn [negb]. rewrite IH. unfold grab_events, emit, set_stream. cbn [cap stream trace length].
      f_equal; [lia|]. f_equal. rewrite <- (assoc_L (++)). f_equal.
      replace (Nat.min (S n) (S (length rest))) with (S (Nat.min n (length rest))) by lia.
      cbn [repeat app]. f_equal. f_equal. repeat case_decide; try done; lia.
Qed.

(** ** One iteration in closed form *)

Lemma loop_body_closed (p : Params) st (frame : Frame) w :
  let skip := skip_decision (absdiff_mean (prev_gray st) (cvtColor frame))
                (motion_threshold p) (min_skip p) (max_skip p) in
  let r := process_frame (detector st) (frame_num st) frame in
  let len := length (stream (cap w)) in
  loop_body p st frame w
  = ({| detector := r.2; prev_gray := cvtColor frame;
        cut_frame_nums := cut_frame_nums st ++ r.1;
        frame_num := frame_num st + Z.of_nat (Nat.min (Z.to_nat skip) len) + 1 |},
     {| cap := cap (set_stream w (drop (Z.to_nat skip) (stream (cap w))));
        trace := trace w ++ [EvProcessFrame (frame_num st) frame r.1]
                         ++ grab_events (Z.to_nat skip) len |}).
Proof.
  intros skip r len. unfold loop_body, call_process_frame. fold skip.
  subst r. destruct (process_frame _ _ _) as [cuts det'].
  rewrite skip_loop_closed. cbn [fst snd emit cap trace set_stream stream].
  fold len. f_equal.
  - f_equal. destruct cuts; [by rewrite app_nil_r | done].
  - f_equal. by rewrite <- (assoc_L (++)).
Qed.

(** ** The whole loop

    [delta] is what the loop appends to the trace. *)
Lemma detect_loop_trace (p : Params) st w :
  exists delta,
    trace (detect_loop p st w).2 = trace w ++ delta
    /\ Forall (fun e => is_loop_event e = true) delta
    /\ cut_frame_nums (detect_loop p st w).1 = cut_frame_nums st ++ incremental_cuts delta
    /\ frame_num (detect_loop p st w).1
       = frame_num st + Z.of_nat (count is_grabbed delta)
         + Z.of_nat (length (process_calls delta))
    /\ (forall n, (stream (cap w) <> [] -> n = frame_num st) ->
                  index_protocol (Z.max 0) p (prev_gray st) n (process_calls delta))
    /\ head (process_calls delta)
       = (fun frame => (frame_num st, frame)) <$> head (stream (cap w)).
Proof.
  remember (length (stream (cap w))) as len eqn:Hlen.
  revert st w Hlen. induction len as [len IH] using lt_wf_ind. intros st w Hlen.
  rewrite detect_loop_eq. unfold cap_read.
  destruct (stream (cap w)) as [|frame rest] eqn:Hs.
  - exists [EvRead false]. cbn. rewrite app_nil_r, !Z.add_0_r.
    repeat split; try done. repeat constructor.
  - rewrite loop_body_closed. cbn zeta.
    cbn [emit set_stream cap trace stream fst snd].
    set (skip := skip_decision _ _ _ _).
    set (r := process_frame _ _ _).
    set (st' := Build_Locals _ _ _ _).
    set (w' := Build_World _ _).
    destruct (IH (length (stream (cap w'))) ltac:(subst w' len; cbn; rewrite length_drop; lia)
                st' w' eq_refl) as (delta & Htr & Hev & Hcuts & Hnum & Hidx & Hhead).
    exists ([EvRead true; EvProcessFrame (frame_num st) frame r.1]
            ++ grab_events (Z.to_nat skip) (length rest) ++ delta).
    destruct (grab_events_calls (Z.to_nat skip) (length rest))
      as (Hg1 & Hg2 & Hg3).
    rewrite !process_calls_app, !incremental_cuts_app, !count_app, Hg1, Hg2, Hg3.
    split; [|split; [|split; [|split; [|split]]]].
    + rewrite Htr. subst w'. cbn [trace]. by rewrite <- !(assoc_L (++)).
    + apply Forall_app. split; [repeat constructor|].
      apply Forall_app. split; [apply grab_events_loop | done].
    + rewrite Hcuts. subst st'. cbn. by rewrite app_nil_r, <- (assoc_L (++)).
    + rewrite Hnum. subst st'. cbn [frame_num]. cbn. lia.
    + intros n Hn. specialize (Hn ltac:(done)). subst n. cbn. fold skip.
      split; [done|]. apply Hidx. subst w' st'. cbn [cap stream frame_num set_stream].
      intros Hdrop.
      assert (Z.to_nat skip < length rest)%nat.
      { destruct (decide (Z.to_nat skip < length rest)%nat) as [|Hge]; [done|].
        exfalso. apply Hdrop. apply drop_ge. lia. }
      lia.
    + done.
Qed.

(** With skips that cannot be negative, [max 0 skip] is [skip]. *)
Lemma index_protocol_nonneg (p : Params) (prev : Gray) (n : Z) (calls : list (Z * Frame)) :
  0 <= min_skip p -> 0 <= max_skip p ->
  index_protocol (Z.max 0) p prev n calls ->
  index_protocol (fun skip => skip) p prev n calls.
Proof.
  intros Hmin Hmax. revert prev n.
  induction calls as [|[m frame] calls IH]; intros prev n; [done|].
  cbn [index_protocol]. intros [-> Hrest]. split; [done|].
  apply IH. rewrite Z.max_r in Hrest; [done|].
  unfold skip_decision. by destruct (Qgtb _ _).
Qed.

(** ** The three ways out of [detect_scenes_dynamic] *)

Lemma run_unopened (p : Params) :
  detect_scenes_dynamic None p
  = (Raise IOError,
     {| cap := {| isOpened := false; CAP_PROP_FPS := 0;
                  CAP_PROP_FRAME_COUNT := 0; stream := [] |};
        trace := [EvOpen false] |}).
Proof. reflexivity. Qed.

Lemma run_no_frames (video : Video) (p : Params) :
  video_frames video = [] ->
  (detect_scenes_dynamic (Some video) p).1 = Ok []
  /\ trace (detect_scenes_dynamic (Some video) p).2 = [EvOpen true; EvRead false; EvRelease].
Proof.
  destruct video as [fps fc frames]. cbn [video_frames]. intros ->. done.
Qed.

Lemma run_frames (video : Video) (p : Params) (f0 : Frame) (rest : list Frame) :
  video_frames video = f0 :: rest ->
  exists delta n cuts,
    trace (detect_scenes_dynamic (Some video) p).2
    = [EvOpen true; EvRead true] ++ delta ++ [EvPostProcess n cuts; EvRelease]
    /\ Forall (fun e => is_loop_event e = true) delta
    /\ (detect_scenes_dynamic (Some video) p).1
       = boundary_builder (incremental_cuts delta ++ cuts)
           (py_int (video_frame_count video)) (video_fps video)
    /\ n = 1 + Z.of_nat (count is_grabbed delta) + Z.of_nat (length (process_calls delta))
    /\ index_protocol (Z.max 0) p (cvtColor f0) 1 (process_calls delta)
    /\ head (process_calls delta) = (fun frame => (1, frame)) <$> head rest.
Proof.
  destruct video as [fps fc frames]. cbn [video_frames video_fps video_frame_count].
  intros ->. unfold detect_scenes_dynamic, cap_read.
  cbn [cv2_VideoCapture cap stream emit set_stream trace isOpened negb app
       CAP_PROP_FPS CAP_PROP_FRAME_COUNT video_frames video_fps video_frame_count].
  set (st0 := Build_Locals _ _ _ _). set (w0 := emit _ _).
  destruct (detect_loop_trace p st0 w0) as (delta & Htr & Hev & Hcuts & Hnum & Hidx & Hhead).
  destruct (detect_loop p st0 w0) as [st w]. cbn [fst snd] in *.
  unfold call_post_process. destruct (post_process _ _) as [cuts det'].
  exists delta, (frame_num st), cuts.
  cbn [fst snd cap_release emit trace]. rewrite Htr, Hcuts.
  subst st0 w0.
  cbn [trace cut_frame_nums frame_num prev_gray cap stream head emit set_stream app] in *.
  repeat split; try done.
  - by rewrite <- !(assoc_L (++)).
  - by apply Hidx.
Qed.

(** What the trace of a run over at least one frame shows. *)
Lemma run_frames_trace (video : Video) (p : Params) (f0 : Frame) (rest : list Frame) :
  video_frames video = f0 :: rest ->
  let run := detect_scenes_dynamic (Some video) p in
  run.1 = boundary_builder (incremental_cuts (trace run.2) ++ flush_cuts (trace run.2))
            (py_int (video_frame_count video)) (video_fps video)
  /\ head (process_calls (trace run.2)) = (fun frame => (1, frame)) <$> head rest
  /\ index_protocol (Z.max 0) p (cvtColor f0) 1 (process_calls (trace run.2))
  /\ flush_calls (trace run.2)
     = [1 + Z.of_nat (count is_grabbed (trace run.2))
          + Z.of_nat (length (process_calls (trace run.2)))]
  /\ count is_open (trace run.2) = 1%nat
  /\ count is_release (trace run.2) = 1%nat
  /\ last (trace run.2) = Some EvRelease.
Proof.
  intros Hframes run.
  destruct (run_frames video p f0 rest Hframes)
    as (delta & n & cuts & Htr & Hev & Hres & Hn & Hidx & Hhead).
  fold run in Htr, Hres. rewrite Htr, Hres.
  destruct (loop_events_quiet delta Hev) as (Hq1 & Hq2 & Hq3 & Hq4).
  rewrite !process_calls_app, !incremental_cuts_app, !flush_cuts_app,
    !flush_calls_app, !count_app, Hq1, Hq2, Hq3, Hq4.
  cbn [process_calls incremental_cuts flush_cuts flush_calls omap list_omap mbind
       list_bind count List.filter is_open is_release is_grabbed length app].
  rewrite !app_nil_r. subst n.
  split_and!; try done.
  - do 2 f_equal. lia.
  - rewrite !last_cons, last_app. done.
Qed.

End DriverFacts.

(** * The claims on the detection driver *)

Section DriverClaims.
Context {Frame Gray D : Type} `{Vision Frame Gray} `{Detector Frame D}.

(** C4. The skip decision is [min_skip] (here [lo]) when the motion value is
    strictly above the threshold and [max_skip] (here [hi]) otherwise,
    equality included; with threshold 5, motion 6 gives [min_skip] and motion
    3 gives [max_skip].  An iteration of the loop attempts that many grabs. *)
Theorem skip_decision_policy (motion_val threshold : Q) (lo hi : Z) :
  ((threshold < motion_val)%Q -> skip_decision motion_val threshold lo hi = lo)
  /\ ((motion_val <= threshold)%Q -> skip_decision motion_val threshold lo hi = hi)
  /\ ((motion_val == threshold)%Q -> skip_decision motion_val threshold lo hi = hi)
  /\ skip_decision 6 5 lo hi = lo
  /\ skip_decision 3 5 lo hi = hi
  /\ (forall (p : Params) (st : @Locals Gray D) (frame : Frame) (w : @World Frame),
        trace (loop_body p st frame w).2
        = trace w
          ++ [EvProcessFrame (frame_num st) frame
                (process_frame (detector st) (frame_num st) frame).1]
          ++ grab_events
               (Z.to_nat (skip_decision (absdiff_mean (prev_gray st) (cvtColor frame))
                            (motion_threshold p) (min_skip p) (max_skip p)))
               (length (stream (cap w)))).
Proof.
  unfold skip_decision, Qgtb. split_and!.
  - intros Hlt. by rewrite (proj2 (Qltb_lt _ _) Hlt).
  - intros Hle. by rewrite (proj2 (Qltb_ge _ _) Hle).
  - intros Heq. rewrite (proj2 (Qltb_ge _ _)); [done|]. rewrite Heq. apply Qle_refl.
  - reflexivity.
  - reflexivity.
  - intros p st frame w. by rewrite loop_body_closed.
Qed.

(** C5. The scenes are built from the boundaries [[0] ++ cuts ++ [total]]
    where [cuts] is strictly ascending, free of duplicates, and holds exactly
    the indices the detector reported, per frame or by the flush. *)
Theorem cut_indices_deduplicated (video : Video) (p : Params) :
  video_frames video <> [] ->
  let run := detect_scenes_dynamic (Some video) p in
  let incremental := incremental_cuts (trace run.2) in
  let flushed := flush_cuts (trace run.2) in
  let cuts := py_sorted (py_set (incremental ++ flushed)) in
  let boundaries := [0] ++ cuts ++ [py_int (video_frame_count video)] in
  run.1 = comprehension (scene_at boundaries (video_fps video))
            (py_range (Z.of_nat (length boundaries) - 1))
  /\ StronglySorted Z.lt cuts
  /\ NoDup cuts
  /\ (forall x, x ∈ cuts <-> x ∈ incremental \/ x ∈ flushed).
Proof.
  intros Hne run incremental flushed cuts boundaries.
  destruct (video_frames video) as [|f0 rest] eqn:Hframes; [done|].
  destruct (run_frames_trace video p f0 rest Hframes) as (Hres & _).
  split_and!.
  - exact Hres.
  - apply py_sorted_set_ascending.
  - apply py_sorted_set_NoDup.
  - intros x. subst cuts. by rewrite py_sorted_set_elem_of, elem_of_app.
Qed.

(** X16. Outside that precondition: any source that opens with at least one
    frame and a frame rate of 0 ends in [ZeroDivisionError], raised by the
    Boundary Builder after the capture has been released. *)
Lemma zero_frame_rate_raises (video : Video) (p : Params) :
  video_frames video <> [] ->
  (video_fps video == 0)%Q ->
  (detect_scenes_dynamic (Some video) p).1 = Raise ZeroDivisionError
  /\ last (trace (detect_scenes_dynamic (Some video) p).2) = Some EvRelease.
Proof.
  intros Hne Hfps. destruct (video_frames video) as [|f0 rest] eqn:Hframes; [done|].
  destruct (run_frames_trace video p f0 rest Hframes) as (-> & _ & _ & _ & _ & _ & Hlast).
  split; [by apply boundary_builder_zero | done].
Qed.


(** C7, amended.  The first analysed frame is the second frame read and is
    fed to the detector with index 1; the index fed with the next analysed
    frame is the current one plus [max 0 skip] plus 1, which is the current
    one plus [skip] plus 1 when neither [min_skip] nor [max_skip] is negative;
    the flush receives 1 plus one per successful grab plus one per analysed
    frame.  The skip loop advances [min n len] frames, counts exactly those,
    and ends on the first failed grab ([grab_events]) with a normal return. *)
Theorem frame_index_protocol (video : Video) (p : Params) (f0 : Frame) (rest : list Frame) :
  video_frames video = f0 :: rest ->
  let tr := trace (detect_scenes_dynamic (Some video) p).2 in
  head (process_calls tr) = (fun frame => (1, frame)) <$> head rest
  /\ index_protocol (Z.max 0) p (cvtColor f0) 1 (process_calls tr)
  /\ (0 <= min_skip p -> 0 <= max_skip p ->
      index_protocol (fun skip => skip) p (cvtColor f0) 1 (process_calls tr))
  /\ flush_calls tr
     = [1 + Z.of_nat (count is_grabbed tr) + Z.of_nat (length (process_calls tr))]
  /\ (forall (n : nat) (fn : Z) (w : @World Frame),
        skip_loop n fn w
        = (fn + Z.of_nat (Nat.min n (length (stream (cap w)))),
           {| cap := cap (set_stream w (drop n (stream (cap w))));
              trace := trace w ++ grab_events n (length (stream (cap w))) |})).
Proof.
  intros Hframes tr.
  destruct (run_frames_trace video p f0 rest Hframes) as (_ & Hhead & Hidx & Hflush & _).
  split_and!; [done | done | | done |].
  - intros Hmin Hmax. by apply index_protocol_nonneg.
  - intros n fn w. apply skip_loop_closed.
Qed.

End DriverClaims.

(** * Runs on the concrete source *)

Lemma skip_decision_policy_witness :
  (5 < 6)%Q /\ skip_decision 6 5 0 5 = 0.
Proof.
  split; [reflexivity|].
  apply (proj1 (skip_decision_policy (Frame := Z) 6 5 0 5)). reflexivity.
Defined.

(** The detector reports index 3 once per frame and once more in its flush;
    the boundaries hold it once. *)
Example clip_run :
  incremental_cuts (trace (detect_scenes_dynamic (Some Mock.clip) Mock.every_frame).2) = [3]
  /\ flush_cuts (trace (detect_scenes_dynamic (Some Mock.clip) Mock.every_frame).2) = [3]
  /\ scene_boundaries [3; 3] 6 = [0; 3; 6]
  /\ (detect_scenes_dynamic (Some Mock.clip) Mock.every_frame).1
     = Ok [(0 # 2, 3 # 2); (3 # 2, 6 # 2)]%Q.
Proof. split_and!; vm_compute; reflexivity. Qed.

Lemma cut_indices_deduplicated_witness :
  video_frames Mock.clip <> []
  /\ let run := detect_scenes_dynamic (Some Mock.clip) Mock.every_frame in
     let incremental := incremental_cuts (trace run.2) in
     let flushed := flush_cuts (trace run.2) in
     let cuts := py_sorted (py_set (incremental ++ flushed)) in
     let boundaries := [0] ++ cuts ++ [py_int (video_frame_count Mock.clip)] in
     run.1 = comprehension (scene_at boundaries (video_fps Mock.clip))
               (py_range (Z.of_nat (length boundaries) - 1))
     /\ StronglySorted Z.lt cuts
     /\ NoDup cuts
     /\ (forall x, x ∈ cuts <-> x ∈ incremental \/ x ∈ flushed).
Proof.
  split; [discriminate|].
  apply (cut_indices_deduplicated Mock.clip Mock.every_frame). discriminate.
Defined.



(** C7, as the specification states it, fails for a negative skip: with
    [min_skip = -2] the frame after the one fed with index 1 is fed with
    index 2, not with [1 + (-2) + 1]. *)
Lemma negative_skip_counterexample :
  process_calls (trace (detect_scenes_dynamic (Some Mock.flicker) Mock.negative_skip).2)
  = [(1, 200); (2, 10)]
  /\ skip_decision (absdiff_mean (cvtColor 10) (cvtColor 200))
       (motion_threshold Mock.negative_skip) (min_skip Mock.negative_skip)
       (max_skip Mock.negative_skip) = -2
  /\ 2 <> 1 + -2 + 1
  /\ ~ index_protocol (fun skip => skip) Mock.negative_skip (cvtColor 10) 1
        (process_calls
           (trace (detect_scenes_dynamic (Some Mock.flicker) Mock.negative_skip).2)).
Proof.
  split_and!; [vm_compute; reflexivity | vm_compute; reflexivity | lia |].
  assert (process_calls
            (trace (detect_scenes_dynamic (Some Mock.flicker) Mock.negative_skip).2)
          = [(1, 200); (2, 10)]) as -> by (vm_compute; reflexivity).
  cbn. intros (_ & Hnext & _). vm_compute in Hnext. discriminate.
Qed.

Lemma frame_index_protocol_witness :
  video_frames Mock.clip = 10 :: [10; 10; 200; 200; 200]
  /\ let tr := trace (detect_scenes_dynamic (Some Mock.clip) default_params).2 in
     head (process_calls tr) = (fun frame => (1, frame)) <$> head [10; 10; 200; 200; 200]
     /\ index_protocol (Z.max 0) default_params (cvtColor 10) 1 (process_calls tr)
     /\ (0 <= min_skip default_params -> 0 <= max_skip default_params ->
         index_protocol (fun skip => skip) default_params (cvtColor 10) 1
           (process_calls tr))
     /\ flush_calls tr
        = [1 + Z.of_nat (count is_grabbed tr) + Z.of_nat (length (process_calls tr))]
     /\ (forall (n : nat) (fn : Z) (w : @World Z),
           skip_loop n fn w
           = (fn + Z.of_nat (Nat.min n (length (stream (cap w)))),
              {| cap := cap (set_stream w (drop n (stream (cap w))));
                 trace := trace w ++ grab_events n (length (stream (cap w))) |})).
Proof.
  split; [reflexivity|].
  apply (frame_index_protocol Mock.clip default_params 10 [10; 10; 200; 200; 200]).
  reflexivity.
Defined.

(** The source runs out during the skip after the first analysed frame: four
    grabs succeed, the fifth fails, and the flush receives 6. *)
Example clip_exhausted_mid_skip :
  trace (detect_scenes_dynamic (Some Mock.clip) default_params).2
  = [EvOpen true; EvRead true; EvRead true; EvProcessFrame 1 10 [];
     EvGrab true; EvGrab true; EvGrab true; EvGrab true; EvGrab false;
     EvRead false; EvPostProcess 6 []; EvRelease]
  /\ (detect_scenes_dynamic (Some Mock.clip) default_params).1 = Ok [(0 # 2, 6 # 2)]%Q.
Proof. split; vm_compute; reflexivity. Qed.

(** * The release discipline *)

Section RaisingFacts.
Context {E Frame Gray D : Type} `{RaisingVision E Frame Gray} `{RaisingDetector E Frame D}.
Implicit Types (w : @World Frame) (st : @Locals Gray D).

(** The loop equation of the [while] loop. *)
Lemma detect_loop_raising_eq (p : Params) st w :
  detect_loop_raising p st w
  = match cap_read w with
    | (None, w1) => (Returns st, w1)
    | (Some frame, w1) =>
        match loop_body_raising p st frame w1 with
        | (Throws e, w2) => (Throws e, w2)
        | (Returns st', w2) => detect_loop_raising p st' w2
        end
    end.
Proof.
  rewrite detect_loop_raising_equation_1.
  destruct (inspect (cap_read w)) as [[[frame|] w1] Heq].
  - etrans; [|by rewrite Heq].
    rewrite detect_loop_raising_clause_1_equation_1.
    destruct (inspect (loop_body_raising p st frame w1)) as [[[st'|e] w2] Hb].
    + etrans; [|by rewrite Hb]. simp detect_loop_raising. reflexivity.
    + etrans; [|by rewrite Hb]. simp detect_loop_raising. by rewrite Hb.
  - etrans; [|by rewrite Heq]. by rewrite detect_loop_raising_clause_1_equation_2.
Qed.

(** One iteration only reads, grabs and analyses: it emits loop events,
    leaves the capture open or closed as it was, and does not lengthen the
    stream. *)
Lemma loop_body_raising_trace (p : Params) st (frame : Frame) w :
  exists delta,
    trace (loop_body_raising p st frame w).2 = trace w ++ delta
    /\ Forall (fun e => is_loop_event e = true) delta
    /\ isOpened (cap (loop_body_raising p st frame w).2) = isOpened (cap w)
    /\ (length (stream (cap (loop_body_raising p st frame w).2))
        <= length (stream (cap w)))%nat.
Proof.
  unfold loop_body_raising.
  destruct (try_cvtColor frame) as [gray|e];
    [|exists []; by rewrite app_nil_r].
  destruct (try_absdiff_mean _ _) as [motion_val|e];
    [|exists []; by rewrite app_nil_r].
  destruct (try_process_frame _ _ _) as [[cuts det']|e];
    [|exists []; by rewrite app_nil_r].
  rewrite skip_loop_closed. cbn [fst snd emit cap trace set_stream stream isOpened].
  eexists. split_and!.
  - by rewrite <- (assoc_L (++)).
  - apply Forall_app. split; [repeat constructor | apply grab_events_loop].
  - done.
  - rewrite length_drop. lia.
Qed.

Lemma detect_loop_raising_trace (p : Params) st w :
  exists delta,
    trace (detect_loop_raising p st w).2 = trace w ++ delta
    /\ Forall (fun e => is_loop_event e = true) delta
    /\ isOpened (cap (detect_loop_raising p st w).2) = isOpened (cap w).
Proof.
  remember (length (stream (cap w))) as len eqn:Hlen.
  revert st w Hlen. induction len as [len IH] using lt_wf_ind. intros st w Hlen.
  rewrite detect_loop_raising_eq. unfold cap_read.
  destruct (stream (cap w)) as [|frame rest] eqn:Hs.
  - exists [EvRead false]. cbn. split_and!; [done | repeat constructor | done].
  - set (w1 := emit (EvRead true) (set_stream w rest)).
    destruct (loop_body_raising_trace p st frame w1) as (d1 & Htr1 & Hev1 & Hop1 & Hlen1).
    destruct (loop_body_raising p st frame w1) as [[st'|e] w2]; cbn [fst snd] in *.
    + destruct (IH (length (stream (cap w2)))
                  ltac:(subst len w1; cbn in Hlen1; cbn; lia) st' w2 eq_refl)
        as (d2 & Htr2 & Hev2 & Hop2).
      exists ([EvRead true] ++ d1 ++ d2). split_and!.
      * rewrite Htr2, Htr1. subst w1. cbn [trace emit set_stream].
        by rewrite <- !(assoc_L (++)).
      * apply Forall_app. split; [repeat constructor|]. by apply Forall_app.
      * rewrite Hop2, Hop1. done.
    + exists ([EvRead true] ++ d1). split_and!.
      * rewrite Htr1. subst w1. cbn [trace emit set_stream].
        by rewrite <- !(assoc_L (++)).
      * apply Forall_app. split; [repeat constructor | done].
      * rewrite Hop1. done.
Qed.

(** C8, amended.  A source that cannot be opened is never released: the call
    raises [IOError] and no handle was acquired.  A source that was opened is
    released exactly once, as the last call made, on every exit the function
    provides itself: the early return on a source without frames, the return
    of the scenes, and the [ZeroDivisionError] of the Boundary Builder.  When
    a call into OpenCV or the detector raises between the opening and the
    release, the exception leaves the function with the capture opened and
    never released: there is no [try] around these calls. *)
Theorem capture_released_once (input : option Video) (p : Params) :
  let run := detect_scenes_dynamic_raising input p in
  match input, run.1 with
  | None, _ =>
      run.1 = OwnError IOError
      /\ count is_open (trace run.2) = 0%nat
      /\ count is_release (trace run.2) = 0%nat
  | Some _, Foreign _ =>
      count is_open (trace run.2) = 1%nat
      /\ count is_release (trace run.2) = 0%nat
      /\ isOpened (cap run.2) = true
  | Some _, _ =>
      count is_open (trace run.2) = 1%nat
      /\ count is_release (trace run.2) = 1%nat
      /\ last (trace run.2) = Some EvRelease
      /\ isOpened (cap run.2) = false
  end.
Proof.
  intros run. subst run. destruct input as [video|]; [|done].
  unfold detect_scenes_dynamic_raising.
  cbn [cv2_VideoCapture cap isOpened negb CAP_PROP_FPS CAP_PROP_FRAME_COUNT].
  destruct (try_AdaptiveDetector _ _ _ _) as [detector0|e]; [|done].
  unfold cap_read. cbn [cap stream].
  destruct (video_frames video) as [|f0 rest]; [done|].
  cbn [fst snd]. destruct (try_cvtColor f0) as [gray0|e]; [|done].
  set (st0 := Build_Locals _ _ _ _). set (w0 := emit _ _).
  destruct (detect_loop_raising_trace p st0 w0) as (delta & Htr & Hev & Hop).
  destruct (loop_events_quiet delta Hev) as (_ & _ & Hrel & Hopen).
  destruct (detect_loop_raising p st0 w0) as [[st|e] w]; cbn [fst snd] in *.
  - destruct (try_post_process _ _) as [[cuts det']|e].
    + assert (count is_open (trace (cap_release (emit (EvPostProcess (frame_num st) cuts) w)))
              = 1%nat
              /\ count is_release
                   (trace (cap_release (emit (EvPostProcess (frame_num st) cuts) w)))
                 = 1%nat
              /\ last (trace (cap_release (emit (EvPostProcess (frame_num st) cuts) w)))
                 = Some EvRelease) as (? & ? & ?).
      { cbn [cap_release emit trace]. rewrite Htr. subst w0.
        cbn [emit trace set_stream]. rewrite !count_app, Hrel, Hopen, !last_app.
        done. }
      by destruct (boundary_builder _ _ _).
    + cbn [fst snd]. rewrite Htr, Hop. subst w0. cbn [emit trace set_stream cap isOpened].
      rewrite !count_app, Hrel, Hopen. done.
  - rewrite Htr, Hop. subst w0. cbn [emit trace set_stream cap isOpened].
    rewrite !count_app, Hrel, Hopen. done.
Qed.

End RaisingFacts.

(** With collaborators that always return, the raising driver is
    [detect_scenes_dynamic]: same trace, same final capture, and the ending
    is the result. *)
Section Returning.
Context {Frame Gray D : Type} `{Vision Frame Gray} `{Detector Frame D}.
Variable E : Type.

Lemma loop_body_returning (p : Params) (st : @Locals Gray D) (frame : Frame)
    (w : @World Frame) :
  @loop_body_raising E Frame Gray D (returning_vision E) (returning_detector E) p st frame w
  = (Returns (loop_body p st frame w).1, (loop_body p st frame w).2).
Proof.
  unfold loop_body_raising, loop_body, call_process_frame. cbn.
  destruct (process_frame _ _ _) as [cuts det'].
  by destruct (skip_loop _ _ _) as [fn w'].
Qed.

Lemma detect_loop_returning (p : Params) (st : @Locals Gray D) (w : @World Frame) :
  @detect_loop_raising E Frame Gray D (returning_vision E) (returning_detector E) p st w
  = (Returns (detect_loop p st w).1, (detect_loop p st w).2).
Proof.
  remember (length (stream (cap w))) as len eqn:Hlen.
  revert st w Hlen. induction len as [len IH] using lt_wf_ind. intros st w Hlen.
  rewrite detect_loop_raising_eq, detect_loop_eq. unfold cap_read.
  destruct (stream (cap w)) as [|frame rest] eqn:Hs; [done|].
  rewrite loop_body_returning.
  pose proof (loop_body_closed p st frame (emit (EvRead true) (set_stream w rest))) as Hb.
  cbn zeta in Hb.
  destruct (loop_body p st frame _) as [st' w'] eqn:Hbody. cbn [fst snd].
  apply (IH (length (stream (cap w')))); [|done].
  injection Hb as _ ->. subst len. cbn. rewrite length_drop. lia.
Qed.

Lemma detect_scenes_dynamic_returning (input : option Video) (p : Params) :
  @detect_scenes_dynamic_raising E Frame Gray D (returning_vision E)
    (returning_detector E) input p
  = (ending_of (detect_scenes_dynamic input p).1, (detect_scenes_dynamic input p).2).
Proof.
  unfold detect_scenes_dynamic_raising, detect_scenes_dynamic.
  destruct input as [video|]; [|done].
  cbn [cv2_VideoCapture cap isOpened negb try_AdaptiveDetector returning_detector].
  unfold cap_read. cbn [cap stream].
  destruct (video_frames video) as [|f0 rest]; [done|].
  cbn [try_cvtColor returning_vision]. rewrite detect_loop_returning.
  destruct (detect_loop _ _ _) as [st w]. cbn [fst snd try_post_process returning_detector].
  unfold call_post_process. by destruct (post_process _ _) as [cuts det'].
Qed.

End Returning.

(** C8, as the specification states it, fails on two kinds of exit.  On the
    unopenable path the run ends with [IOError] and no release call.  And
    when the detector raises on the third analysed frame of the concrete
    source, the exception ends the run after four reads and two analysed
    frames with the capture opened and no release call. *)
Lemma capture_release_counterexample :
  (detect_scenes_dynamic (Frame := Z) (Gray := Z) (D := Mock.state) None default_params
   = (Raise IOError,
      {| cap := {| isOpened := false; CAP_PROP_FPS := 0;
                   CAP_PROP_FRAME_COUNT := 0; stream := [] |};
         trace := [EvOpen false] |})
   /\ count is_release
        (trace (detect_scenes_dynamic (Frame := Z) (Gray := Z) (D := Mock.state)
                  None default_params).2) <> 1%nat)
  /\ (let run := @detect_scenes_dynamic_raising MockRaising.foreign Z Z Mock.state
                   MockRaising.vision MockRaising.detector
                   (Some Mock.clip) Mock.every_frame in
      run.1 = Foreign MockRaising.detector_error
      /\ trace run.2
         = [EvOpen true; EvRead true;
            EvRead true; EvProcessFrame 1 10 [];
            EvRead true; EvProcessFrame 2 10 [];
            EvRead true]
      /\ isOpened (cap run.2) = true
      /\ count is_release (trace run.2) <> 1%nat).
Proof.
  split; [split; [reflexivity | discriminate]|].
  vm_compute. split_and!; [reflexivity | reflexivity | reflexivity | discriminate].
Qed.

(** * Further properties of the Scene Merger *)

Section MergeShape.
Context {T : Type} `{PyNum T}.
Implicit Types (scenes rest : list (T * T)) (cur first : T * T) (m : T).

Lemma absorb_length m cur rest :
  length (absorb m cur rest)
  = S (length (List.filter (fun s => negb (is_short m s)) rest)).
Proof.
  revert cur. induction rest as [|[start end_] rest IH]; intros cur; [done|].
  cbn [absorb List.filter]. unfold is_short at 1. cbn [fst snd].
  destruct (py_lt _ _); cbn [negb length]; by rewrite IH.
Qed.

Lemma absorb_all_short m cur rest :
  forallb (is_short m) rest = true ->
  absorb m cur rest = [(cur.1, (default cur (last rest)).2)].
Proof.
  revert cur. induction rest as [|[start end_] rest IH]; intros [cs ce]; [done|].
  cbn [forallb]. intros [Hs Hrest]%andb_prop. unfold is_short in Hs. cbn [fst snd] in Hs.
  cbn [absorb]. rewrite Hs, (IH _ Hrest). cbn [fst snd].
  destruct rest as [|r rest]; [done|]. rewrite last_cons_cons.
  destruct (last (r :: rest)) eqn:Hlast; [done|]. by apply last_None in Hlast.
Qed.

Lemma absorb_contiguous m cur rest :
  Contiguous (cur :: rest) -> Contiguous (absorb m cur rest).
Proof.
  revert cur. induction rest as [|[start end_] rest IH]; intros [cs ce]; [done|].
  intros [Hce Hrest]. cbn [fst snd] in Hce. cbn [absorb fst].
  destruct (py_lt _ _).
  - apply IH. destruct rest as [|r rest]; [done|]. exact Hrest.
  - specialize (IH (start, end_) Hrest).
    destruct (absorb_head m (start, end_) rest) as ([hs he] & Hhead & Hstart).
    destruct (absorb m (start, end_) rest) as [|h tail]; [done|].
    injection Hhead as ->. cbn [fst] in Hstart. subst hs.
    split; [exact Hce | exact IH].
Qed.

Lemma absorb_bounds m cur rest s :
  s ∈ absorb m cur rest ->
  (exists a, a ∈ cur :: rest /\ s.1 = a.1) /\ (exists b, b ∈ cur :: rest /\ s.2 = b.2).
Proof.
  revert cur s. induction rest as [|[start end_] rest IH]; intros [cs ce] s.
  - intros ->%list_elem_of_singleton. split; exists (cs, ce); by rewrite list_elem_of_singleton.
  - cbn [absorb fst]. destruct (py_lt _ _).
    + intros Hs. destruct (IH _ _ Hs) as [(a & Ha & Hsa) (b & Hb & Hsb)].
      apply elem_of_cons in Ha as [-> | Ha]; apply elem_of_cons in Hb as [-> | Hb]; split.
      all: try (exists (cs, ce); split; [by left | done]).
      all: try (exists (start, end_); split; [by right; left | done]).
      all: try (exists a; split; [by right; right | done]).
      all: try (exists b; split; [by right; right | done]).
    + intros [-> | Hs]%elem_of_cons.
      { split; exists (cs, ce); split; (by left) || done. }
      destruct (IH _ _ Hs) as [(a & Ha & Hsa) (b & Hb & Hsb)].
      split; [exists a | exists b]; split; (by right) || done.
Qed.

End MergeShape.

Lemma filter_length_all {A : Type} (f : A -> bool) (l : list A) :
  length (List.filter f l) = length l -> forallb f l = true.
Proof.
  induction l as [|x l IH]; [done|]. cbn [List.filter forallb].
  pose proof (List.filter_length_le f l) as Hle.
  destruct (f x); cbn [length andb]; intros Hlen; [apply IH|]; lia.
Qed.

Lemma filter_length_mono {A : Type} (f g : A -> bool) (l : list A) :
  (forall x, f x = true -> g x = true) ->
  (length (List.filter f l) <= length (List.filter g l))%nat.
Proof.
  intros Hfg. induction l as [|x l IH]; [done|]. cbn [List.filter].
  destruct (f x) eqn:Hf.
  - rewrite (Hfg x Hf). cbn [length]. lia.
  - destruct (g x); cbn [length]; lia.
Qed.

(** X1. [merge_short_scenes] keeps the first scene and one scene for each
    later input scene that is not below [min_duration]; it never returns more
    scenes than it was given. *)
Theorem merge_short_scenes_length {T : Type} `{PyNum T}
    (scenes : list (T * T)) (min_duration : T) :
  exists out,
    merge_short_scenes scenes min_duration = Ok out
    /\ length out
       = (length (take 1 scenes)
          + length (List.filter (fun s => negb (is_short min_duration s))
                      (drop 1 scenes)))%nat
    /\ (length out <= length scenes)%nat.
Proof.
  exists (scene_merger scenes min_duration).
  split; [apply merge_short_scenes_refines|].
  destruct scenes as [|first rest]; [done|].
  cbn [scene_merger]. rewrite absorb_length.
  change (drop 1 (first :: rest)) with rest.
  change (take 1 (first :: rest)) with [first].
  pose proof (List.filter_length_le (fun s => negb (is_short min_duration s)) rest).
  cbn [length]. split; [done | lia].
Qed.

(** X2. [merge_short_scenes] returns its input unchanged exactly when no
    scene after the first is below [min_duration]. *)
Theorem merge_short_scenes_unchanged_iff {T : Type} `{PyNum T}
    (scenes : list (T * T)) (min_duration : T) :
  merge_short_scenes scenes min_duration = Ok scenes
  <-> forallb (fun s => negb (is_short min_duration s)) (drop 1 scenes) = true.
Proof.
  rewrite merge_short_scenes_refines.
  destruct scenes as [|first rest]; [done|]. cbn [scene_merger].
  change (drop 1 (first :: rest)) with rest.
  split.
  - intros [= Heq]. apply filter_length_all.
    pose proof (absorb_length min_duration first rest) as Hlen.
    rewrite Heq in Hlen. cbn [length] in Hlen. unfold Scene in *. lia.
  - intros Hall. f_equal. apply absorb_fixed.
    apply Forall_forall. intros s Hs.
    rewrite forallb_forall in Hall. specialize (Hall s).
    rewrite <- list_elem_of_In in Hall. specialize (Hall Hs).
    by apply negb_true_iff in Hall.
Qed.

(** X3. When every scene after the first is below [min_duration], the whole
    list collapses into one scene from the first start to the last end. *)
Theorem merge_short_scenes_all_short {T : Type} `{PyNum T}
    (first : T * T) (rest : list (T * T)) (min_duration : T) :
  forallb (is_short min_duration) rest = true ->
  merge_short_scenes (first :: rest) min_duration
  = Ok [(first.1, (default first (last rest)).2)].
Proof.
  intros Hall. rewrite merge_short_scenes_refines. cbn [scene_merger].
  by rewrite absorb_all_short.
Qed.

Lemma merge_short_scenes_all_short_witness :
  forallb (is_short 5%Q) [(2, 3); (3, 6)]%Q = true
  /\ merge_short_scenes [(0, 2); (2, 3); (3, 6)]%Q 5%Q
     = Ok [((0, 2).1, (default (0, 2) (last [(2, 3); (3, 6)])).2)]%Q.
Proof.
  split; [reflexivity|].
  apply (merge_short_scenes_all_short (0, 2)%Q [(2, 3); (3, 6)]%Q 5%Q). reflexivity.
Defined.

(** X4. Merging keeps a scene list contiguous: if every input scene ends
    where the next one starts, so does every output scene. *)
Theorem merge_short_scenes_contiguous {T : Type} `{PyNum T}
    (scenes : list (T * T)) (min_duration : T) :
  Contiguous scenes ->
  exists out, merge_short_scenes scenes min_duration = Ok out /\ Contiguous out.
Proof.
  intros Hc. exists (scene_merger scenes min_duration).
  split; [apply merge_short_scenes_refines|].
  destruct scenes as [|first rest]; [done|]. by apply absorb_contiguous.
Qed.

Lemma merge_short_scenes_contiguous_witness :
  Contiguous [(0, 2); (2, 3); (3, 10)]%Z
  /\ exists out,
       merge_short_scenes [(0, 2); (2, 3); (3, 10)]%Z 2%Z = Ok out /\ Contiguous out.
Proof.
  split; [cbn; done|].
  apply (merge_short_scenes_contiguous [(0, 2); (2, 3); (3, 10)]%Z 2%Z). cbn. done.
Defined.

(** X5. Merging invents no time stamp: every output scene starts where some
    input scene starts and ends where some input scene ends. *)
Theorem merge_short_scenes_bounds {T : Type} `{PyNum T}
    (scenes : list (T * T)) (min_duration : T) :
  exists out,
    merge_short_scenes scenes min_duration = Ok out
    /\ forall s, s ∈ out ->
         (exists a, a ∈ scenes /\ s.1 = a.1) /\ (exists b, b ∈ scenes /\ s.2 = b.2).
Proof.
  exists (scene_merger scenes min_duration).
  split; [apply merge_short_scenes_refines|].
  destruct scenes as [|first rest]; [by intros s Hs%elem_of_nil|].
  intros s Hs. by apply (absorb_bounds min_duration first rest).
Qed.

(** X6. Raising [min_duration] never yields more scenes (exact
    rationals). *)
Theorem merge_short_scenes_threshold_monotone
    (scenes : list (Q * Q)) (min_duration min_duration' : Q) :
  (min_duration <= min_duration')%Q ->
  exists out out',
    merge_short_scenes scenes min_duration = Ok out
    /\ merge_short_scenes scenes min_duration' = Ok out'
    /\ (length out' <= length out)%nat.
Proof.
  intros Hle. exists (scene_merger scenes min_duration), (scene_merger scenes min_duration').
  rewrite !merge_short_scenes_refines. split; [done|]. split; [done|].
  destruct scenes as [|first rest]; [done|]. cbn [scene_merger].
  rewrite !absorb_length. apply le_n_S, filter_length_mono.
  intros s. unfold is_short. cbn [py_lt py_sub PyNum_Q].
  rewrite !negb_true_iff, !Qltb_ge. intros Hs. by apply (Qle_trans _ min_duration').
Qed.

Lemma merge_short_scenes_threshold_monotone_witness :
  (2 <= 8)%Q
  /\ exists out out',
       merge_short_scenes [(0, 2); (2, 3); (3, 10)]%Q 2%Q = Ok out
       /\ merge_short_scenes [(0, 2); (2, 3); (3, 10)]%Q 8%Q = Ok out'
       /\ (length out' <= length out)%nat.
Proof.
  split; [discriminate|].
  apply (merge_short_scenes_threshold_monotone [(0, 2); (2, 3); (3, 10)]%Q 2%Q 8%Q).
  discriminate.
Defined.

(** * Further properties of the Boundary Builder *)

Lemma py_set_ext (cuts cuts' : list Z) :
  (forall x, x ∈ cuts <-> x ∈ cuts') -> py_set cuts = py_set cuts'.
Proof.
  intros Hext. unfold py_set. apply set_eq. intros x.
  by rewrite !elem_of_list_to_set.
Qed.

Lemma py_sorted_set_length (cuts : list Z) :
  length (py_sorted (py_set cuts)) = size (py_set cuts).
Proof. unfold py_sorted. by rewrite merge_sort_Permutation. Qed.

Lemma adjacent_pairs_ascending (l : list Z) :
  StronglySorted Z.lt l -> Forall (fun ab => ab.1 < ab.2) (adjacent_pairs l).
Proof.
  induction l as [|a [|b l] IH]; intros Hs; [constructor..|].
  rewrite adjacent_pairs_cons. apply StronglySorted_inv in Hs as [Hs Hall].
  constructor; [|by apply IH]. cbn. by apply Forall_inv in Hall.
Qed.

Lemma ascending_snoc (l : list Z) (t : Z) :
  StronglySorted Z.lt l -> Forall (fun c => c < t) l -> StronglySorted Z.lt (l ++ [t]).
Proof.
  induction 1 as [|c l Hs IH Hall]; intros Hlt; [repeat constructor|].
  apply Forall_cons in Hlt as [Hc Hlt]. cbn [app]. constructor; [by apply IH|].
  apply Forall_app. split; [done|]. by repeat constructor.
Qed.

Lemma boundaries_ascending (cuts : list Z) (total_frames : Z) :
  0 < total_frames ->
  Forall (fun c => 0 < c < total_frames) cuts ->
  StronglySorted Z.lt (scene_boundaries cuts total_frames).
Proof.
  intros Htotal Hcuts. unfold scene_boundaries.
  assert (Forall (fun c => 0 < c < total_frames) (py_sorted (py_set cuts))) as Hin.
  { rewrite Forall_forall in Hcuts. apply Forall_forall.
    intros c Hc. apply Hcuts. by apply (proj1 (py_sorted_set_elem_of cuts c)). }
  cbn [app]. constructor.
  - apply ascending_snoc; [apply py_sorted_set_ascending|].
    eapply Forall_impl; [exact Hin|]. cbn. lia.
  - apply Forall_app. split; [|by repeat constructor].
    eapply Forall_impl; [exact Hin|]. cbn. lia.
Qed.

(** X7. The Boundary Builder depends only on the set of cut indices: order
    and repetition of the reported cuts change nothing, and feeding it its own
    sorted, deduplicated cut list gives the same scenes. *)
Theorem boundary_builder_set_invariant
    (cuts cuts' : list Z) (total_frames : Z) (fps : Q) :
  (forall x, x ∈ cuts <-> x ∈ cuts') ->
  boundary_builder cuts total_frames fps = boundary_builder cuts' total_frames fps
  /\ boundary_builder (py_sorted (py_set cuts)) total_frames fps
     = boundary_builder cuts total_frames fps.
Proof.
  intros Hext. unfold boundary_builder. split.
  - by rewrite (py_set_ext cuts cuts' Hext).
  - rewrite (py_set_ext (py_sorted (py_set cuts)) cuts); [done|].
    intros x. apply py_sorted_set_elem_of.
Qed.

Lemma boundary_builder_set_invariant_witness :
  (forall x, x ∈ [210; 90; 210] <-> x ∈ [90; 210])
  /\ boundary_builder [210; 90; 210] 300 30 = boundary_builder [90; 210] 300 30
  /\ boundary_builder (py_sorted (py_set [210; 90; 210])) 300 30
     = boundary_builder [210; 90; 210] 300 30.
Proof.
  assert (forall x, x ∈ [210; 90; 210] <-> x ∈ [90; 210]) as Hext.
  { intros x. rewrite !elem_of_cons, !elem_of_nil. tauto. }
  split; [exact Hext|].
  apply (boundary_builder_set_invariant [210; 90; 210] [90; 210] 300 30 Hext).
Defined.

(** X8. With a frame rate other than 0 the Boundary Builder returns one
    scene more than there are distinct cut indices. *)
Theorem boundary_builder_scene_count (cuts : list Z) (total_frames : Z) (fps : Q) :
  ~ (fps == 0)%Q ->
  exists scenes,
    boundary_builder cuts total_frames fps = Ok scenes
    /\ length scenes = S (size (py_set cuts)).
Proof.
  intros Hfps. eexists. split; [by apply boundary_builder_nonzero|].
  rewrite length_fmap, adjacent_pairs_length. unfold scene_boundaries.
  rewrite !length_app, py_sorted_set_length. cbn [length]. lia.
Qed.

Lemma boundary_builder_scene_count_witness :
  ~ (30 == 0)%Q
  /\ exists scenes,
       boundary_builder [210; 90; 210] 300 30 = Ok scenes
       /\ length scenes = S (size (py_set [210; 90; 210])).
Proof.
  split; [discriminate|].
  apply (boundary_builder_scene_count [210; 90; 210] 300 30). discriminate.
Defined.

(** X9. With a positive frame rate, a positive frame count and every cut
    index strictly between 0 and the frame count, every scene ends strictly
    after it starts. *)
Theorem boundary_builder_positive_durations
    (cuts : list Z) (total_frames : Z) (fps : Q) :
  (0 < fps)%Q ->
  0 < total_frames ->
  Forall (fun c => 0 < c < total_frames) cuts ->
  exists scenes,
    boundary_builder cuts total_frames fps = Ok scenes
    /\ Forall (fun s => (s.1 < s.2)%Q) scenes.
Proof.
  intros Hfps Htotal Hcuts. eexists. split; [apply boundary_builder_nonzero; lra|].
  apply Forall_fmap.
  eapply Forall_impl; [apply adjacent_pairs_ascending, boundaries_ascending; done|].
  intros [a b] Hab. cbn in *. unfold Qdiv.
  apply Qmult_lt_compat_r; [by apply Qinv_lt_0_compat|].
  by rewrite <- Zlt_Qlt.
Qed.

Lemma boundary_builder_positive_durations_witness :
  (0 < 30)%Q /\ 0 < 300
  /\ Forall (fun c => 0 < c < 300) [210; 90; 210]
  /\ exists scenes,
       boundary_builder [210; 90; 210] 300 30 = Ok scenes
       /\ Forall (fun s => (s.1 < s.2)%Q) scenes.
Proof.
  assert (Forall (fun c => 0 < c < 300) [210; 90; 210]) as Hcuts
    by (repeat constructor; lia).
  split; [reflexivity|]. split; [lia|]. split; [exact Hcuts|].
  apply (boundary_builder_positive_durations [210; 90; 210] 300 30);
    [reflexivity | lia | exact Hcuts].
Defined.

Lemma ascending_head_least (c x : Z) (l : list Z) :
  StronglySorted Z.lt (c :: l) -> x ∈ c :: l -> Forall (fun y => x <= y) (c :: l) -> c = x.
Proof.
  intros [_ Hall]%StronglySorted_inv [-> | Hx]%elem_of_cons [Hc _]%Forall_cons; [done|].
  rewrite Forall_forall in Hall. specialize (Hall x Hx). lia.
Qed.

Lemma ascending_last_greatest (x : Z) (l : list Z) :
  StronglySorted Z.lt l -> x ∈ l -> Forall (fun y => y <= x) l -> last l = Some x.
Proof.
  induction 1 as [|c l Hs IH Hall]; [by intros ?%elem_of_nil|].
  intros Hx [Hc Hle]%Forall_cons. destruct l as [|d l].
  - apply elem_of_cons in Hx as [-> | ?%elem_of_nil]; done.
  - rewrite last_cons_cons. apply IH; [|done].
    apply elem_of_cons in Hx as [-> | Hx]; [|done].
    apply Forall_inv in Hall. apply Forall_inv in Hle. lia.
Qed.

(** X10. The Boundary Builder does not guard the sentinels: with a positive
    frame rate and cut indices within [0, total_frames], a reported cut at 0
    makes the first scene empty and a reported cut at [total_frames] makes the
    last scene empty (start and end are the same number). *)
Theorem boundary_builder_sentinel_cuts (cuts : list Z) (total_frames : Z) (fps : Q) :
  (0 < fps)%Q ->
  Forall (fun c => 0 <= c <= total_frames) cuts ->
  exists scenes,
    boundary_builder cuts total_frames fps = Ok scenes
    /\ (0 ∈ cuts ->
        exists first, head scenes = Some first /\ first.1 = first.2 /\ (first.1 == 0)%Q)
    /\ (total_frames ∈ cuts ->
        exists final, last scenes = Some final /\ final.1 = final.2
                      /\ final.2 = (inject_Z total_frames / fps)%Q).
Proof.
  intros Hfps Hcuts. eexists. split; [apply boundary_builder_nonzero; lra|].
  assert (Forall (fun c => 0 <= c <= total_frames) (py_sorted (py_set cuts))) as Hin.
  { rewrite Forall_forall in Hcuts. apply Forall_forall.
    intros c Hc. apply Hcuts. by apply (proj1 (py_sorted_set_elem_of cuts c)). }
  pose proof (py_sorted_set_ascending cuts) as Hs.
  unfold scene_boundaries. split.
  - intros Hzero%py_sorted_set_elem_of.
    destruct (py_sorted (py_set cuts)) as [|c l] eqn:Hl; [by apply elem_of_nil in Hzero|].
    assert (c = 0) as ->.
    { apply (ascending_head_least c 0 l Hs Hzero).
      eapply Forall_impl; [exact Hin|]. cbn. lia. }
    exists (to_seconds fps (0, 0)). split; [done|]. split; [done|].
    cbn. unfold Qdiv. apply Qmult_0_l.
  - intros Htotal%py_sorted_set_elem_of.
    exists (to_seconds fps (total_frames, total_frames)). split; [|done].
    rewrite fmap_last.
    change ([0] ++ py_sorted (py_set cuts) ++ [total_frames])
      with ((0 :: py_sorted (py_set cuts)) ++ [total_frames]).
    rewrite (adjacent_pairs_last _ total_frames total_frames); [done|].
    destruct (py_sorted (py_set cuts)) as [|c l] eqn:Hl; [by apply elem_of_nil in Htotal|].
    rewrite last_cons_cons. apply ascending_last_greatest; [done..|].
    eapply Forall_impl; [exact Hin|]. cbn. lia.
Qed.

Lemma boundary_builder_sentinel_cuts_witness :
  (0 < 30)%Q
  /\ Forall (fun c => 0 <= c <= 300) [0; 90; 300]
  /\ exists scenes,
       boundary_builder [0; 90; 300] 300 30 = Ok scenes
       /\ (0 ∈ [0; 90; 300] ->
           exists first, head scenes = Some first /\ first.1 = first.2
                         /\ (first.1 == 0)%Q)
       /\ (300 ∈ [0; 90; 300] ->
           exists final, last scenes = Some final /\ final.1 = final.2
                         /\ final.2 = (inject_Z 300 / 30)%Q).
Proof.
  assert (Forall (fun c => 0 <= c <= 300) [0; 90; 300]) as Hcuts
    by (repeat constructor; lia).
  split; [reflexivity|]. split; [exact Hcuts|].
  apply (boundary_builder_sentinel_cuts [0; 90; 300] 300 30); [reflexivity | exact Hcuts].
Defined.

(** The degenerate scenes of that input, evaluated. *)
Example boundary_builder_sentinel_run :
  boundary_builder [0; 90; 300] 300 30
  = Ok [(0 # 30, 0 # 30); (0 # 30, 90 # 30); (90 # 30, 300 # 30); (300 # 30, 300 # 30)]%Q.
Proof. vm_compute. reflexivity. Qed.

(** * Further properties of the detection driver *)

Section DriverPositions.
Context {Frame Gray D : Type} `{Vision Frame Gray} `{Detector Frame D}.
Implicit Types (w : @World Frame) (st : @Locals Gray D) (tr : list (@Event Frame)).

Lemma grab_events_decoded (n len : nat) :
  count is_decoded (@grab_events Frame n len) = 0%nat.
Proof.
  unfold grab_events. rewrite count_app.
  assert (forall k, count is_decoded (repeat (@EvGrab Frame true) k) = 0%nat) as ->.
  { induction k as [|k IH]; [done|]. cbn [repeat].
    change (?e :: ?l) with ([e] ++ l). by rewrite count_app, IH. }
  by case_decide.
Qed.

(** The run over an opened source with a first frame, with its parts named:
    the loop from the seeded state, then the flush, the release and the
    Boundary Builder. *)
Lemma run_frames_unfold (video : Video) (p : Params) (f0 : Frame) (rest : list Frame) :
  video_frames video = f0 :: rest ->
  let st0 := {| detector := AdaptiveDetector (adaptive_threshold p) (window_width p)
                              (min_content_val p) 1;
                prev_gray := cvtColor f0; cut_frame_nums := []; frame_num := 1 |} in
  let w0 := {| cap := {| isOpened := true; CAP_PROP_FPS := video_fps video;
                         CAP_PROP_FRAME_COUNT := video_frame_count video;
                         stream := rest |};
               trace := [EvOpen true; EvRead true] |} in
  let r := detect_loop p st0 w0 in
  let fl := post_process (detector r.1) (frame_num r.1) in
  detect_scenes_dynamic (Some video) p
  = (boundary_builder (cut_frame_nums r.1 ++ fl.1)
       (py_int (video_frame_count video)) (video_fps video),
     cap_release (emit (EvPostProcess (frame_num r.1) fl.1) r.2)).
Proof.
  destruct video as [fps fc frames]. cbn [video_frames video_fps video_frame_count].
  intros ->. unfold detect_scenes_dynamic, cap_read.
  cbn [cv2_VideoCapture cap stream emit set_stream trace isOpened negb app
       CAP_PROP_FPS CAP_PROP_FRAME_COUNT video_frames video_fps video_frame_count].
  destruct (detect_loop p _ _) as [st w]. cbn [fst snd].
  unfold call_post_process. by destruct (post_process _ _) as [cuts det'].
Qed.

(** The frame index is the position in the source: with [pre] the frames
    already consumed, the loop feeds every analysed frame with its own
    position, in ascending order, and leaves with the index at the number of
    frames and nothing left to read. *)
Lemma detect_loop_positions (p : Params) st w (pre : list Frame) :
  frame_num st = Z.of_nat (length pre) ->
  exists calls,
    process_calls (trace (detect_loop p st w).2) = process_calls (trace w) ++ calls
    /\ Forall (fun nf => frame_num st <= nf.1
                         /\ (pre ++ stream (cap w)) !! Z.to_nat nf.1 = Some nf.2) calls
    /\ StronglySorted Z.lt (fst <$> calls)
    /\ frame_num (detect_loop p st w).1 = Z.of_nat (length (pre ++ stream (cap w)))
    /\ stream (cap (detect_loop p st w).2) = []
    /\ (count is_decoded (trace (detect_loop p st w).2)
        + count is_grabbed (trace (detect_loop p st w).2)
        = count is_decoded (trace w) + count is_grabbed (trace w)
          + length (stream (cap w)))%nat.
Proof.
  remember (length (stream (cap w))) as len eqn:Hlen.
  revert st w pre Hlen. induction len as [len IH] using lt_wf_ind.
  intros st w pre Hlen Hnum.
  rewrite detect_loop_eq. unfold cap_read.
  destruct (stream (cap w)) as [|frame rest] eqn:Hs.
  - exists []. cbn [fst snd emit trace cap].
    rewrite process_calls_app, !count_app, Hs, !app_nil_r. cbn.
    split_and!; try done; try (by constructor). subst len. cbn [length]. lia.
  - rewrite loop_body_closed. cbn zeta.
    cbn [emit set_stream cap trace stream fst snd].
    set (skip := skip_decision _ _ _ _).
    set (r := process_frame _ _ _).
    set (n := Z.to_nat skip).
    set (st' := Build_Locals _ _ _ _).
    set (w' := Build_World _ _).
    assert (stream (cap w') = drop n rest) as Hs' by done.
    assert (frame_num st' = Z.of_nat (length (pre ++ frame :: take n rest))) as Hnum'.
    { subst st'. cbn [frame_num]. rewrite Hnum, length_app. cbn [length].
      rewrite length_take. lia. }
    destruct (IH (length (stream (cap w'))) ltac:(rewrite Hs', length_drop; subst len; cbn; lia)
                st' w' (pre ++ frame :: take n rest) eq_refl Hnum')
      as (calls & Hcalls & Hpos & Hsorted & Hfinal & Hempty & Hcount).
    assert ((pre ++ frame :: take n rest) ++ stream (cap w') = pre ++ frame :: rest) as Hall.
    { rewrite Hs', <- (assoc_L (++)). cbn [app]. by rewrite take_drop. }
    rewrite Hall in Hpos, Hfinal.
    exists ((frame_num st, frame) :: calls).
    destruct (grab_events_calls (Frame := Frame) n (length rest)) as (Hg1 & _ & Hg3).
    pose proof (grab_events_decoded n (length rest)) as Hg4.
    assert (trace w' = trace w ++ [EvRead true; EvProcessFrame (frame_num st) frame r.1]
                               ++ grab_events n (length rest)) as Htr.
    { subst w'. cbn [trace]. by rewrite <- !(assoc_L (++)). }
    split_and!.
    + rewrite Hcalls, Htr, !process_calls_app, Hg1. cbn. by rewrite <- ?(assoc_L (++)), ?app_nil_r.
    + constructor.
      * cbn [fst snd]. split; [lia|]. rewrite Hnum, Nat2Z.id.
        by rewrite lookup_app_r, Nat.sub_diag.
      * eapply Forall_impl; [exact Hpos|]. intros [m f] [Hm Hf]. cbn [fst snd] in *.
        split; [|done]. subst st'. cbn [frame_num] in Hm. clear -Hm. lia.
    + cbn [fmap list_fmap fst]. constructor; [done|].
      apply Forall_fmap. eapply Forall_impl; [exact Hpos|].
      intros [m f] [Hm _]. unfold compose. cbn [fst snd] in *.
      subst st'. cbn [frame_num] in Hm. clear -Hm. lia.
    + done.
    + done.
    + rewrite Hcount, Htr, !count_app, Hg3, Hg4, Hs', length_drop. cbn.
      clearbody n. subst len. cbn [length]. lia.
Qed.

(** Without a positive skip the loop grabs nothing and analyses every frame
    left in the source, each with the next index. *)
Lemma detect_loop_no_skip (p : Params) st w :
  min_skip p <= 0 -> max_skip p <= 0 ->
  process_calls (trace (detect_loop p st w).2)
  = process_calls (trace w)
    ++ zip (seqZ (frame_num st) (Z.of_nat (length (stream (cap w))))) (stream (cap w))
  /\ count is_grabbed (trace (detect_loop p st w).2) = count is_grabbed (trace w).
Proof.
  intros Hmin Hmax.
  remember (length (stream (cap w))) as len eqn:Hlen.
  revert st w Hlen. induction len as [len IH] using lt_wf_ind. intros st w Hlen.
  rewrite detect_loop_eq. unfold cap_read.
  destruct (stream (cap w)) as [|frame rest] eqn:Hs.
  - cbn [fst snd emit trace]. rewrite process_calls_app, count_app. cbn.
    subst len. cbn. by rewrite Nat.add_0_r.
  - rewrite loop_body_closed. cbn zeta.
    cbn [emit set_stream cap trace stream fst snd].
    set (skip := skip_decision _ _ _ _).
    assert (Z.to_nat skip = 0%nat) as ->.
    { subst skip. unfold skip_decision. destruct (Qgtb _ _); lia. }
    unfold grab_events. cbn [Nat.min repeat drop].
    rewrite decide_False by lia. rewrite !app_nil_r, drop_0.
    match goal with |- context [detect_loop p ?st1 ?w1] =>
      destruct (IH (length rest) ltac:(subst len; cbn; lia) st1 w1 eq_refl) as [Hcalls Hgrabs]
    end.
    cbn [cap stream trace frame_num] in Hcalls, Hgrabs.
    rewrite Hcalls, Hgrabs, !process_calls_app, !count_app. subst len. cbn [length].
    rewrite (seqZ_cons (frame_num st)) by lia.
    replace (Z.pred (Z.of_nat (S (length rest)))) with (Z.of_nat (length rest)) by lia.
    replace (Z.succ (frame_num st)) with (frame_num st + Z.of_nat 0 + 1) by lia.
    cbn. rewrite <- !(assoc_L (++)). split; [done | lia].
Qed.

(** A detector that reports nothing per frame leaves the cut list as it
    is. *)
Lemma detect_loop_silent (p : Params) st w :
  (forall d n frame, (process_frame d n frame).1 = []) ->
  cut_frame_nums (detect_loop p st w).1 = cut_frame_nums st.
Proof.
  intros Hsilent.
  remember (length (stream (cap w))) as len eqn:Hlen.
  revert st w Hlen. induction len as [len IH] using lt_wf_ind. intros st w Hlen.
  rewrite detect_loop_eq. unfold cap_read.
  destruct (stream (cap w)) as [|frame rest] eqn:Hs; [done|].
  rewrite loop_body_closed. cbn zeta.
  cbn [emit set_stream cap trace stream fst snd].
  match goal with |- context [detect_loop p ?st1 ?w1] =>
    rewrite (IH (length (stream (cap w1)))
               ltac:(subst len; cbn; rewrite length_drop; lia) st1 w1 eq_refl)
  end.
  cbn [cut_frame_nums]. by rewrite Hsilent, app_nil_r.
Qed.

End DriverPositions.

Lemma seconds_contiguous (fps : Q) (l : list Z) :
  Contiguous (to_seconds fps <$> adjacent_pairs l).
Proof.
  induction l as [|a [|b [|c l]] IH]; [done..|].
  rewrite adjacent_pairs_cons. rewrite adjacent_pairs_cons in IH.
  cbn [fmap list_fmap] in *. split; [done | exact IH].
Qed.

Lemma seconds_ends (cuts : list Z) (total_frames : Z) (fps : Q) :
  exists first final,
    head (to_seconds fps <$> adjacent_pairs (scene_boundaries cuts total_frames))
    = Some first
    /\ last (to_seconds fps <$> adjacent_pairs (scene_boundaries cuts total_frames))
       = Some final
    /\ first.1 = (inject_Z 0 / fps)%Q
    /\ final.2 = (inject_Z total_frames / fps)%Q.
Proof.
  unfold scene_boundaries.
  destruct (py_sorted (py_set cuts)) as [|c l].
  - by exists (to_seconds fps (0, total_frames)), (to_seconds fps (0, total_frames)).
  - destruct (last (0 :: c :: l)) as [x|] eqn:Hlast; [|by apply last_None in Hlast].
    exists (to_seconds fps (0, c)), (to_seconds fps (x, total_frames)).
    split_and!; [done| | done | done].
    rewrite fmap_last.
    change ([0] ++ (c :: l) ++ [total_frames]) with ((0 :: c :: l) ++ [total_frames]).
    by rewrite (adjacent_pairs_last _ x total_frames Hlast).
Qed.

Section DriverExtras.
Context {Frame Gray D : Type} `{Vision Frame Gray} `{Detector Frame D}.

(** The trace of a run over at least one frame, read through the loop. *)
Lemma run_frames_calls (video : Video) (p : Params) (f0 : Frame) (rest : list Frame) :
  video_frames video = f0 :: rest ->
  let st0 := {| detector := AdaptiveDetector (adaptive_threshold p) (window_width p)
                              (min_content_val p) 1;
                prev_gray := cvtColor f0; cut_frame_nums := []; frame_num := 1 |} in
  let w0 := {| cap := {| isOpened := true; CAP_PROP_FPS := video_fps video;
                         CAP_PROP_FRAME_COUNT := video_frame_count video;
                         stream := rest |};
               trace := [EvOpen true; EvRead true] |} in
  let r := detect_loop p st0 w0 in
  let tr := trace (detect_scenes_dynamic (Some video) p).2 in
  process_calls tr = process_calls (trace r.2)
  /\ flush_calls tr = [frame_num r.1]
  /\ count is_decoded tr = count is_decoded (trace r.2)
  /\ count is_grabbed tr = count is_grabbed (trace r.2)
  /\ stream (cap (detect_scenes_dynamic (Some video) p).2) = []
  /\ isOpened (cap (detect_scenes_dynamic (Some video) p).2) = false.
Proof.
  intros Hframes st0 w0 r tr. subst tr.
  rewrite (run_frames_unfold video p f0 rest Hframes). fold st0 w0 r.
  cbn [snd cap_release emit trace cap stream isOpened].
  rewrite !process_calls_app, !flush_calls_app, !count_app.
  destruct (detect_loop_trace p st0 w0) as (delta & Htr & Hev & _).
  destruct (loop_events_quiet delta Hev) as (Hq1 & _).
  fold r in Htr. rewrite Htr, flush_calls_app, Hq1. cbn.
  rewrite !app_nil_r, !Nat.add_0_r. done.
Qed.

(** X11. The index handed to the detector is the frame's position in the
    source (the first frame being position 0): every analysed frame is fed
    with its own position, positions are fed in strictly ascending order, and
    the flush receives the number of frames the source yielded. *)
Theorem frame_numbers_are_positions
    (video : Video) (p : Params) (f0 : Frame) (rest : list Frame) :
  video_frames video = f0 :: rest ->
  let tr := trace (detect_scenes_dynamic (Some video) p).2 in
  Forall (fun nf => 1 <= nf.1 /\ video_frames video !! Z.to_nat nf.1 = Some nf.2)
    (process_calls tr)
  /\ StronglySorted Z.lt (fst <$> process_calls tr)
  /\ flush_calls tr = [Z.of_nat (length (video_frames video))].
Proof.
  intros Hframes tr.
  destruct (run_frames_calls video p f0 rest Hframes) as (Hcalls & Hflush & _).
  fold tr in Hcalls, Hflush. rewrite Hcalls, Hflush, Hframes.
  match type of Hflush with context [detect_loop p ?st0 ?w0] =>
    destruct (detect_loop_positions p st0 w0 [f0] eq_refl)
      as (calls & Hc & Hpos & Hsorted & Hnum & _)
  end.
  cbn [trace cap stream app frame_num] in Hc, Hpos, Hnum. rewrite Hc, Hnum.
  cbn [process_calls omap list_omap app]. done.
Qed.


(** X12. A run over a source that opens consumes every frame exactly once:
    the successful reads and the successful grabs together number the frames
    of the source, nothing is left to read, and the capture ends closed. *)
Theorem every_frame_consumed_once (video : Video) (p : Params) :
  let run := detect_scenes_dynamic (Some video) p in
  (count is_decoded (trace run.2) + count is_grabbed (trace run.2))%nat
  = length (video_frames video)
  /\ stream (cap run.2) = []
  /\ isOpened (cap run.2) = false.
Proof.
  intros run. subst run. destruct (video_frames video) as [|f0 rest] eqn:Hframes.
  - destruct video as [fps fc frames]. cbn [video_frames] in Hframes. by subst frames.
  - destruct (run_frames_calls video p f0 rest Hframes) as (_ & _ & -> & -> & -> & ->).
    match goal with |- context [detect_loop p ?st0 ?w0] =>
      destruct (detect_loop_positions p st0 w0 [f0] eq_refl)
        as (calls & _ & _ & _ & _ & _ & Hcount)
    end.
    cbn [trace cap stream] in Hcount. rewrite Hcount. done.
Qed.

(** X13. When neither [min_skip] nor [max_skip] is positive nothing is
    grabbed and the detector sees every frame after the first, in order, each
    with its position. *)
Theorem no_skip_analyses_every_frame
    (video : Video) (p : Params) (f0 : Frame) (rest : list Frame) :
  min_skip p <= 0 -> max_skip p <= 0 ->
  video_frames video = f0 :: rest ->
  let tr := trace (detect_scenes_dynamic (Some video) p).2 in
  process_calls tr = zip (seqZ 1 (Z.of_nat (length rest))) rest
  /\ count is_grabbed tr = 0%nat.
Proof.
  intros Hmin Hmax Hframes tr.
  destruct (run_frames_calls video p f0 rest Hframes) as (Hcalls & _ & _ & Hgrabs & _).
  fold tr in Hcalls, Hgrabs. rewrite Hcalls, Hgrabs.
  match goal with |- context [detect_loop p ?st0 ?w0] =>
    destruct (detect_loop_no_skip p st0 w0 Hmin Hmax) as [-> ->]
  end.
  done.
Qed.


(** X14. When the detector reports no cut, neither per frame nor in its
    flush, a source with at least one frame and a frame rate other than 0
    gives the single scene from 0 to [total_frames / fps]. *)
Theorem no_cut_single_scene (video : Video) (p : Params) :
  (forall d n frame, (process_frame d n frame).1 = []) ->
  (forall d n, (post_process d n).1 = []) ->
  video_frames video <> [] ->
  ~ (video_fps video == 0)%Q ->
  (detect_scenes_dynamic (Some video) p).1
  = Ok [((inject_Z 0 / video_fps video)%Q,
         (inject_Z (py_int (video_frame_count video)) / video_fps video)%Q)].
Proof.
  intros Hquiet Hflush Hne Hfps.
  destruct (video_frames video) as [|f0 rest] eqn:Hframes; [done|].
  rewrite (run_frames_unfold video p f0 rest Hframes). cbn [fst].
  rewrite detect_loop_silent by done. rewrite Hflush. cbn [cut_frame_nums app].
  by rewrite boundary_builder_nonzero.
Qed.

End DriverExtras.

Lemma frame_numbers_are_positions_witness :
  video_frames Mock.clip = 10 :: [10; 10; 200; 200; 200]
  /\ let tr := trace (detect_scenes_dynamic (Some Mock.clip) default_params).2 in
     Forall (fun nf => 1 <= nf.1 /\ video_frames Mock.clip !! Z.to_nat nf.1 = Some nf.2)
       (process_calls tr)
     /\ StronglySorted Z.lt (fst <$> process_calls tr)
     /\ flush_calls tr = [Z.of_nat (length (video_frames Mock.clip))].
Proof.
  split; [reflexivity|].
  apply (frame_numbers_are_positions Mock.clip default_params 10 [10; 10; 200; 200; 200]).
  reflexivity.
Defined.

Lemma no_skip_analyses_every_frame_witness :
  min_skip Mock.every_frame <= 0 /\ max_skip Mock.every_frame <= 0
  /\ video_frames Mock.clip = 10 :: [10; 10; 200; 200; 200]
  /\ let tr := trace (detect_scenes_dynamic (Some Mock.clip) Mock.every_frame).2 in
     process_calls tr
     = zip (seqZ 1 (Z.of_nat (length [10; 10; 200; 200; 200]))) [10; 10; 200; 200; 200]
     /\ count is_grabbed tr = 0%nat.
Proof.
  split; [reflexivity|]. split; [reflexivity|]. split; [reflexivity|].
  apply (no_skip_analyses_every_frame Mock.clip Mock.every_frame 10
           [10; 10; 200; 200; 200]); reflexivity.
Defined.

Lemma no_cut_single_scene_witness :
  (forall d n frame, (@process_frame Z unit Mock.silent d n frame).1 = [])
  /\ (forall d n, (@post_process Z unit Mock.silent d n).1 = [])
  /\ video_frames Mock.clip <> []
  /\ ~ (video_fps Mock.clip == 0)%Q
  /\ (@detect_scenes_dynamic Z Z unit Mock.vision Mock.silent (Some Mock.clip)
        default_params).1
     = Ok [((inject_Z 0 / video_fps Mock.clip)%Q,
            (inject_Z (py_int (video_frame_count Mock.clip)) / video_fps Mock.clip)%Q)].
Proof.
  split; [reflexivity|]. split; [reflexivity|]. split; [discriminate|].
  split; [discriminate|].
  apply (@no_cut_single_scene Z Z unit Mock.vision Mock.silent Mock.clip default_params);
    [reflexivity | reflexivity | discriminate | discriminate].
Defined.

Lemma zero_frame_rate_raises_witness :
  video_frames Mock.still <> []
  /\ (video_fps Mock.still == 0)%Q
  /\ (detect_scenes_dynamic (Some Mock.still) default_params).1 = Raise ZeroDivisionError
  /\ last (trace (detect_scenes_dynamic (Some Mock.still) default_params).2)
     = Some EvRelease.
Proof.
  split; [discriminate|]. split; [reflexivity|].
  apply (zero_frame_rate_raises Mock.still default_params); [discriminate | reflexivity].
Defined.

(** * Detection followed by merging (lines 146-156) *)

(** Merging a contiguous list keeps it contiguous and keeps its two ends. *)
Lemma merge_tiles {T : Type} `{PyNum T}
    (scenes : list (T * T)) (first final : T * T) (min_duration : T) :
  Contiguous scenes ->
  head scenes = Some first -> last scenes = Some final ->
  exists merged mfirst mfinal,
    merge_short_scenes scenes min_duration = Ok merged
    /\ Contiguous merged
    /\ head merged = Some mfirst /\ mfirst.1 = first.1
    /\ last merged = Some mfinal /\ mfinal.2 = final.2.
Proof.
  intros Hc Hhead Hlast. destruct scenes as [|s0 rest]; [done|].
  injection Hhead as ->.
  destruct (absorb_head min_duration first rest) as (c & Hc1 & Hc2).
  destruct (absorb_last min_duration first rest) as (c' & l & Hc' & Hl & Hcl).
  unfold Scene in *. rewrite Hlast in Hl. injection Hl as <-.
  exists (absorb min_duration first rest), c, c'.
  rewrite merge_short_scenes_refines. cbn [scene_merger].
  split_and!; try done. by apply absorb_contiguous.
Qed.

Section Pipeline.
Context {Frame Gray D : Type} `{Vision Frame Gray} `{Detector Frame D}.

(** The scenes of a run over at least one frame with a frame rate other than
    0 are contiguous, start at [0 / fps] and end at [total_frames / fps]. *)
Lemma detect_tiles (video : Video) (p : Params) :
  video_frames video <> [] ->
  ~ (video_fps video == 0)%Q ->
  exists scenes first final,
    (detect_scenes_dynamic (Some video) p).1 = Ok scenes
    /\ Contiguous scenes
    /\ head scenes = Some first /\ first.1 = (inject_Z 0 / video_fps video)%Q
    /\ last scenes = Some final
    /\ final.2 = (inject_Z (py_int (video_frame_count video)) / video_fps video)%Q.
Proof.
  intros Hne Hfps. destruct (video_frames video) as [|f0 rest] eqn:Hframes; [done|].
  destruct (run_frames_trace video p f0 rest Hframes) as (-> & _).
  rewrite boundary_builder_nonzero by done.
  match goal with |- context [scene_boundaries ?cuts ?total] =>
    destruct (seconds_ends cuts total (video_fps video))
      as (first & final & Hhead & Hlast & Hfirst & Hfinal);
    exists (to_seconds (video_fps video) <$> adjacent_pairs (scene_boundaries cuts total)),
      first, final
  end.
  split_and!; try done. apply seconds_contiguous.
Qed.

(** X15. Detection followed by merging tiles the video: for a source with
    at least one frame and a positive frame rate, any detector and any
    [min_duration], the merged scene list is contiguous, starts at 0 and ends
    at [total_frames / fps]. *)
Theorem detect_then_merge_tiles (video : Video) (p : Params) (min_duration : Q) :
  video_frames video <> [] ->
  (0 < video_fps video)%Q ->
  exists scenes merged first final,
    (detect_scenes_dynamic (Some video) p).1 = Ok scenes
    /\ merge_short_scenes scenes min_duration = Ok merged
    /\ Contiguous merged
    /\ head merged = Some first /\ (first.1 == 0)%Q
    /\ last merged = Some final
    /\ final.2 = (inject_Z (py_int (video_frame_count video)) / video_fps video)%Q.
Proof.
  intros Hne Hfps.
  destruct (detect_tiles video p Hne) as (scenes & f & l & Hrun & Hc & Hf & Hf0 & Hl & Hl1).
  { lra. }
  destruct (merge_tiles scenes f l min_duration Hc Hf Hl)
    as (merged & mf & ml & Hm & Hmc & Hmf & Hmf0 & Hml & Hml1).
  exists scenes, merged, mf, ml. split_and!; try done.
  - rewrite Hmf0, Hf0. unfold Qdiv. apply Qmult_0_l.
  - by rewrite Hml1.
Qed.

End Pipeline.

Lemma detect_then_merge_tiles_witness :
  video_frames Mock.clip <> []
  /\ (0 < video_fps Mock.clip)%Q
  /\ exists scenes merged first final,
       (detect_scenes_dynamic (Some Mock.clip) Mock.every_frame).1 = Ok scenes
       /\ merge_short_scenes scenes 1%Q = Ok merged
       /\ Contiguous merged
       /\ head merged = Some first /\ (first.1 == 0)%Q
       /\ last merged = Some final
       /\ final.2
          = (inject_Z (py_int (video_frame_count Mock.clip)) / video_fps Mock.clip)%Q.
Proof.
  split; [discriminate|]. split; [reflexivity|].
  apply (detect_then_merge_tiles Mock.clip Mock.every_frame 1%Q);
    [discriminate | reflexivity].
Defined.

(** * split_scenes and the script body *)

Lemma string_length_app (s t : string) :
  String.length (s +:+ t) = (String.length s + String.length t)%nat.
Proof. induction s as [|c s IH]; [done|]. simpl. f_equal. exact IH. Qed.

Lemma string_app_inj_r (s1 s2 t : string) : s1 +:+ t = s2 +:+ t -> s1 = s2.
Proof.
  revert s2. induction s1 as [|a s1 IH]; intros [|b s2] Heq; [done| | |].
  - apply (f_equal String.length) in Heq.
    rewrite !string_length_app in Heq. simpl in Heq. lia.
  - apply (f_equal String.length) in Heq.
    rewrite !string_length_app in Heq. simpl in Heq. lia.
  - cbn in Heq. injection Heq as -> Heq. f_equal. by apply IH.
Qed.

(** No two scene numbers share an output file. *)
Lemma output_file_inj (output_dir : string) (i j : nat) :
  output_file output_dir i = output_file output_dir j -> i = j.
Proof.
  unfold output_file, os_path_join.
  change (String.prefix "/" ("Scene_" +:+ pretty i +:+ ".mp4")) with false.
  change (String.prefix "/" ("Scene_" +:+ pretty j +:+ ".mp4")) with false.
  cbn iota. intros Heq.
  assert ("Scene_" +:+ pretty i +:+ ".mp4" = "Scene_" +:+ pretty j +:+ ".mp4") as Hname.
  { destruct (String.eqb output_dir "" || ends_with_sep output_dir).
    - by apply (inj (String.append output_dir)) in Heq.
    - apply (inj (String.append output_dir)) in Heq.
      by apply (inj (String.append "/")) in Heq. }
  apply (inj (String.append "Scene_")) in Hname.
  apply string_app_inj_r in Hname. by apply (inj pretty) in Hname.
Qed.

Section SplitFacts.
Context {S : Type} `{System S} `{Formatter}.

Lemma runs_app (ev1 ev2 : list OsEvent) : runs (ev1 ++ ev2) = runs ev1 ++ runs ev2.
Proof. apply omap_app. Qed.

(** The loop in full: it runs the commands of a prefix of the scenes, every
    one but the last of them returned 0, and it raises exactly when the last
    one did not, right after that command. *)
Lemma split_loop_runs (input_path output_dir : string) (idx : nat)
    (scenes : list (Q * Q)) (sys : S) :
  let res := split_loop input_path output_dir idx scenes sys in
  (fst <$> runs res.2) `prefix_of` commands input_path output_dir idx scenes
  /\ Forall (fun e => is_output e = true) res.2
  /\ match res.1.1 with
     | Returned =>
         fst <$> runs res.2 = commands input_path output_dir idx scenes
         /\ Forall (fun x => x.2 = 0) (runs res.2)
     | Raised e =>
         exists rc cmd init,
           e = CalledProcessError rc cmd /\ rc <> 0
           /\ res.2 = init ++ [OsRun cmd rc]
           /\ Forall (fun x => x.2 = 0) (runs init)
     end.
Proof.
  revert idx sys. induction scenes as [|scene scenes IH]; intros idx sys.
  - cbn. split_and!; [apply prefix_nil | constructor | done | constructor].
  - cbn [split_loop commands].
    destruct (subprocess_run sys _) as [rc sys1] eqn:Hrun.
    destruct (Z.eqb_spec rc 0) as [-> | Hrc].
    + specialize (IH (Datatypes.S idx) sys1).
      destruct (split_loop input_path output_dir (Datatypes.S idx) scenes sys1)
        as [[r sys2] ev]. cbn [fst snd] in *.
      destruct IH as (Hpre & Hout & Hres).
      rewrite runs_app. cbn [runs omap list_omap app fmap list_fmap fst].
      split_and!.
      * by apply prefix_cons.
      * by repeat constructor.
      * destruct r as [|e].
        -- destruct Hres as [-> Hall]. split; [done|]. by constructor.
        -- destruct Hres as (rc & cmd & init & -> & Hrc & -> & Hall).
           exists rc, cmd,
             (OsPrint (splitting_message idx scene)
              :: OsRun (ffmpeg_cmd input_path output_dir idx scene) 0 :: init).
           split_and!; try done. cbn. by constructor.
    + cbn [fst snd runs omap list_omap fmap list_fmap].
      split_and!.
      * apply prefix_cons, prefix_nil.
      * by repeat constructor.
      * exists rc, (ffmpeg_cmd input_path output_dir idx scene),
          [OsPrint (splitting_message idx scene)].
        split_and!; try done.
Qed.

Lemma split_loop_all_succeed (input_path output_dir : string) (idx : nat)
    (scenes : list (Q * Q)) (sys : S) :
  (forall s cmd, (subprocess_run s cmd).1 = 0) ->
  (split_loop input_path output_dir idx scenes sys).1.1 = Returned.
Proof.
  intros Hok. revert idx sys. induction scenes as [|scene scenes IH]; intros idx sys; [done|].
  cbn [split_loop]. specialize (Hok sys (ffmpeg_cmd input_path output_dir idx scene)).
  destruct (subprocess_run sys _) as [rc sys1]. cbn [fst] in Hok. subst rc. cbn.
  specialize (IH (Datatypes.S idx) sys1).
  by destruct (split_loop _ _ _ _ _) as [[r sys2] ev].
Qed.

Lemma commands_length (input_path output_dir : string) (idx : nat) (scenes : list (Q * Q)) :
  length (commands input_path output_dir idx scenes) = length scenes.
Proof. revert idx. induction scenes as [|s scenes IH]; intros idx; cbn; [done|]. by rewrite IH. Qed.

Lemma commands_outputs (input_path output_dir : string) (idx : nat) (scenes : list (Q * Q)) :
  omap last (commands input_path output_dir idx scenes)
  = output_file output_dir <$> seq idx (length scenes).
Proof.
  revert idx. induction scenes as [|s scenes IH]; intros idx; [done|].
  cbn [commands omap list_omap length seq fmap list_fmap]. by rewrite <- IH.
Qed.

End SplitFacts.

Section SplitClaims.
Context {S : Type} `{System S} `{Formatter}.

Lemma commands_lookup (input_path output_dir : string) (idx k : nat)
    (scenes : list (Q * Q)) :
  commands input_path output_dir idx scenes !! k
  = ffmpeg_cmd input_path output_dir (idx + k) <$> scenes !! k.
Proof.
  revert idx k. induction scenes as [|s scenes IH]; intros idx [|k]; cbn; [done..| |].
  - by rewrite Nat.add_0_r.
  - rewrite IH. by replace (Datatypes.S idx + k)%nat with (idx + Datatypes.S k)%nat by lia.
Qed.

(** [split_scenes] is the directory reset, the loop, and the closing print
    when the loop returns. *)
Lemma split_scenes_unfold (input_path : string) (scenes : list (Q * Q))
    (output_dir : string) (sys : S) :
  let found := os_path_exists sys output_dir in
  let res := split_loop input_path output_dir 1 scenes
               (os_makedirs (if found then shutil_rmtree sys output_dir else sys)
                  output_dir) in
  split_scenes input_path scenes output_dir sys
  = (res.1.1, res.1.2,
     OsExists output_dir found :: (if found then [OsRmtree output_dir] else [])
     ++ OsMakedirs output_dir :: res.2
     ++ match res.1.1 with
        | Returned => [OsPrint (saved_message output_dir)]
        | Raised _ => []
        end).
Proof.
  intros found res. unfold split_scenes. subst res found.
  destruct (split_loop _ _ _ _ _) as [[r sys'] ev]. cbn [fst snd].
  destruct r; [done|]. by rewrite app_nil_r.
Qed.

Lemma runs_reset (output_dir : string) (found : bool) (body tail : list OsEvent) :
  runs (OsExists output_dir found :: (if found then [OsRmtree output_dir] else [])
        ++ OsMakedirs output_dir :: body ++ tail)
  = runs body ++ runs tail.
Proof. destruct found; cbn; apply runs_app. Qed.

(** X17. When every [ffmpeg] call returns 0, [split_scenes] returns
    normally after running exactly one command per scene, in the order of the
    scenes: the command of the scene at position [k] cuts [input_path] from
    the scene's start to its end into [Scene_<k+1>.mp4] of the output
    directory.  The last thing it does is print the closing message. *)
Theorem split_scenes_all_succeed (input_path : string) (scenes : list (Q * Q))
    (output_dir : string) (sys : S) :
  (forall s cmd, (subprocess_run s cmd).1 = 0) ->
  let res := split_scenes input_path scenes output_dir sys in
  res.1.1 = Returned
  /\ length (runs res.2) = length scenes
  /\ (forall k scene, scenes !! k = Some scene ->
        runs res.2 !! k
        = Some (["ffmpeg"; "-y"; "-i"; input_path;
                 "-ss"; format_3f scene.1; "-to"; format_3f scene.2;
                 "-c"; "copy"; output_file output_dir (Datatypes.S k)], 0))
  /\ last res.2 = Some (OsPrint (saved_message output_dir)).
Proof.
  intros Hok res. subst res. rewrite split_scenes_unfold. cbn [fst snd].
  set (sys0 := os_makedirs _ _).
  pose proof (split_loop_all_succeed input_path output_dir 1 scenes sys0 Hok) as Hret.
  destruct (split_loop_runs input_path output_dir 1 scenes sys0) as (_ & _ & Hres).
  rewrite Hret in *. destruct Hres as [Hcmds Hzero].
  rewrite runs_reset. cbn [runs omap list_omap]. rewrite app_nil_r.
  split_and!.
  - done.
  - by rewrite <- (length_fmap fst), Hcmds, commands_length.
  - intros k scene Hk.
    pose proof (commands_lookup input_path output_dir 1 k scenes) as Hlk.
    rewrite <- Hcmds, list_lookup_fmap, Hk in Hlk. cbn in Hlk.
    destruct (runs _ !! k) as [[cmd rc]|] eqn:Hrun; [|done].
    cbn in Hlk. injection Hlk as ->.
    rewrite Forall_lookup in Hzero. specialize (Hzero k _ Hrun). cbn in Hzero.
    by subst rc.
  - destruct (os_path_exists sys output_dir); cbn [app];
      rewrite ?last_cons, last_app; done.
Qed.

(** X18. A command that returns a code other than 0 ends [split_scenes]
    there: it is the last command run, the call raises [CalledProcessError]
    with that code and that command, and nothing is run or printed after it.
    The commands run are always a prefix of the commands of the scenes, and a
    call that returns has run all of them with code 0 and printed the closing
    message last.  (The system calls are taken to return: what happens when
    one of them raises is outside [System].) *)
Theorem split_scenes_stops_at_first_failure (input_path : string)
    (scenes : list (Q * Q)) (output_dir : string) (sys : S) :
  let res := split_scenes input_path scenes output_dir sys in
  (fst <$> runs res.2) `prefix_of` commands input_path output_dir 1 scenes
  /\ (forall k cmd rc,
        runs res.2 !! k = Some (cmd, rc) -> rc <> 0 ->
        Datatypes.S k = length (runs res.2)
        /\ res.1.1 = Raised (CalledProcessError rc cmd)
        /\ last res.2 = Some (OsRun cmd rc))
  /\ (res.1.1 = Returned ->
        fst <$> runs res.2 = commands input_path output_dir 1 scenes
        /\ Forall (fun x => x.2 = 0) (runs res.2)
        /\ last res.2 = Some (OsPrint (saved_message output_dir))).
Proof.
  intros res. subst res. rewrite split_scenes_unfold. cbn [fst snd].
  set (sys0 := os_makedirs _ _).
  destruct (split_loop_runs input_path output_dir 1 scenes sys0) as (Hpre & _ & Hres).
  destruct (split_loop input_path output_dir 1 scenes sys0) as [[r sys'] ev].
  cbn [fst snd] in *. rewrite runs_reset.
  destruct r as [|e].
  - destruct Hres as [Hcmds Hzero]. cbn [runs omap list_omap]. rewrite app_nil_r.
    split_and!; [done | |].
    + intros k cmd rc Hk Hrc. rewrite Forall_lookup in Hzero.
      by specialize (Hzero k _ Hk).
    + intros _. split_and!; [done | done |].
      destruct (os_path_exists sys output_dir); cbn [app];
        rewrite ?last_cons, last_app; done.
  - cbn [runs omap list_omap]. rewrite !app_nil_r. split_and!; [done | | done].
    destruct Hres as (rc0 & cmd0 & init & -> & Hrc0 & -> & Hzero).
    intros k cmd rc Hk Hrc. rewrite runs_app in Hk. cbn [runs omap list_omap] in Hk.
    rewrite runs_app, length_app. cbn [runs omap list_omap length].
    destruct (decide (k < length (runs init))%nat) as [Hlt | Hge].
    + rewrite lookup_app_l in Hk by done. rewrite Forall_lookup in Hzero.
      by specialize (Hzero k _ Hk).
    + rewrite lookup_app_r in Hk by lia.
      destruct (k - length (runs init))%nat as [|j] eqn:Hj; [|done].
      injection Hk as <- <-. split_and!; [lia | done |].
      destruct (os_path_exists sys output_dir); cbn [app];
        rewrite ?last_cons, !last_app; done.
Qed.

(** X19. Whatever the scenes and whether or not a command fails,
    [split_scenes] starts by testing the output directory, removes it exactly
    when it exists, and creates it; everything after that is a print or a
    command, so the directory is reset once, before the first command. *)
Theorem split_scenes_resets_directory (input_path : string) (scenes : list (Q * Q))
    (output_dir : string) (sys : S) :
  let found := os_path_exists sys output_dir in
  exists body,
    (split_scenes input_path scenes output_dir sys).2
    = OsExists output_dir found :: (if found then [OsRmtree output_dir] else [])
      ++ OsMakedirs output_dir :: body
    /\ Forall (fun e => is_output e = true) body.
Proof.
  intros found. rewrite split_scenes_unfold. cbn [fst snd]. fold found.
  set (sys0 := os_makedirs _ _).
  destruct (split_loop_runs input_path output_dir 1 scenes sys0) as (_ & Hout & _).
  eexists. split; [reflexivity|].
  apply Forall_app. split; [done|]. by destruct (_.1.1); repeat constructor.
Qed.

(** X20. No two commands of one call write the same file: the output
    files of the commands run are [Scene_1.mp4], [Scene_2.mp4], ... of the
    output directory, in this order, and they are pairwise distinct for every
    directory name. *)
Theorem split_scenes_output_files_distinct (input_path : string)
    (scenes : list (Q * Q)) (output_dir : string) (sys : S) :
  let written := omap last (fst <$> runs (split_scenes input_path scenes output_dir sys).2) in
  written `prefix_of` (output_file output_dir <$> seq 1 (length scenes))
  /\ NoDup written.
Proof.
  intros written.
  assert (written `prefix_of` (output_file output_dir <$> seq 1 (length scenes))) as Hpre.
  { subst written. rewrite split_scenes_unfold. cbn [fst snd].
    set (sys0 := os_makedirs _ _).
    destruct (split_loop_runs input_path output_dir 1 scenes sys0) as (Hpre & _ & _).
    rewrite runs_reset.
    replace (runs (match _ with Returned => _ | Raised _ => _ end)) with (@nil (list string * Z))
      by (by destruct (_.1.1)).
    rewrite app_nil_r, <- (commands_outputs input_path).
    destruct Hpre as [k ->]. rewrite omap_app. by eexists. }
  split; [done|]. destruct Hpre as [k Hk].
  assert (NoDup (output_file output_dir <$> seq 1 (length scenes))) as Hnd.
  { apply NoDup_fmap_2; [|apply NoDup_seq]. intros i j. apply output_file_inj. }
  rewrite Hk in Hnd. by apply NoDup_app in Hnd as [? _].
Qed.

End SplitClaims.

Lemma split_scenes_all_succeed_witness :
  (forall s cmd, (@subprocess_run unit MockSystem.always_ok s cmd).1 = 0)
  /\ let res := split_scenes "clip.mp4" [(0, 3 # 2); (3 # 2, 3)]%Q "out" tt in
     res.1.1 = Returned
     /\ length (runs res.2) = length [(0, 3 # 2); (3 # 2, 3)]%Q
     /\ (forall k scene, [(0, 3 # 2); (3 # 2, 3)]%Q !! k = Some scene ->
           runs res.2 !! k
           = Some (["ffmpeg"; "-y"; "-i"; "clip.mp4";
                    "-ss"; format_3f scene.1; "-to"; format_3f scene.2;
                    "-c"; "copy"; output_file "out" (Datatypes.S k)], 0))
     /\ last res.2 = Some (OsPrint (saved_message "out")).
Proof.
  split; [intros s cmd; reflexivity|].
  apply (split_scenes_all_succeed "clip.mp4" [(0, 3 # 2); (3 # 2, 3)]%Q "out" tt).
  intros s cmd. reflexivity.
Defined.

(** The second command of three fails: the third is never tried, and the
    output directory, which existed, has been removed and created anew. *)
Example split_scenes_second_fails_run :
  split_scenes "clip.mp4" [(0, 1); (1, 2); (2, 3)]%Q "out" 0%nat
  = (Raised (CalledProcessError 1
               ["ffmpeg"; "-y"; "-i"; "clip.mp4"; "-ss"; "1/1"; "-to"; "2/1";
                "-c"; "copy"; "out/Scene_2.mp4"]),
     2%nat,
     [OsExists "out" true; OsRmtree "out"; OsMakedirs "out";
      OsPrint "Splitting Scene 1: 0/1s → 1/1s";
      OsRun ["ffmpeg"; "-y"; "-i"; "clip.mp4"; "-ss"; "0/1"; "-to"; "1/1";
             "-c"; "copy"; "out/Scene_1.mp4"] 0;
      OsPrint "Splitting Scene 2: 1/1s → 2/1s";
      OsRun ["ffmpeg"; "-y"; "-i"; "clip.mp4"; "-ss"; "1/1"; "-to"; "2/1";
             "-c"; "copy"; "out/Scene_2.mp4"] 1]).
Proof. vm_compute. reflexivity. Qed.

(** * The script body (lines 144-157) *)

Section ScriptClaims.
Context {Frame Gray D S : Type} `{Vision Frame Gray} `{Detector Frame D}
        `{System S} `{Formatter}.

Lemma main_raise (args : Args) (input : option Video) (sys : S) (e : exn) :
  (detect_scenes_dynamic input (args_params args)).1 = Raise e ->
  main args input sys
  = (Raised (Builtin e), (detect_scenes_dynamic input (args_params args)).2, sys, []).
Proof.
  intros Hrun. unfold main.
  destruct (detect_scenes_dynamic input (args_params args)) as [r w].
  cbn [fst snd] in *. by subst r.
Qed.

Lemma main_split (args : Args) (input : option Video) (sys : S)
    (scenes merged : list (Q * Q)) :
  (detect_scenes_dynamic input (args_params args)).1 = Ok scenes ->
  merge_short_scenes scenes (args_min_duration args) = Ok merged ->
  let res := split_scenes (args_video_file args) merged (args_output_dir args) sys in
  main args input sys
  = (res.1.1, (detect_scenes_dynamic input (args_params args)).2, res.1.2, res.2).
Proof.
  intros Hrun Hmerge res. unfold main.
  destruct (detect_scenes_dynamic input (args_params args)) as [r w].
  cbn [fst snd] in *. subst r. rewrite Hmerge. subst res.
  by destruct (split_scenes _ _ _ _) as [[r sys'] ev].
Qed.

(** X21. A failed detection leaves the file system alone.  When the
    source cannot be opened the script ends in [IOError], and when the source
    opens with at least one frame and a frame rate of 0 it ends in
    [ZeroDivisionError] after the capture was released; in both cases
    [split_scenes] is not reached: no directory is tested, removed or
    created, no command is run, and the system is as it was, so the output
    of an earlier run is still in place. *)
Theorem main_detection_failures (args : Args) (input : option Video) (sys : S) :
  let res := main args input sys in
  (input = None ->
     res.1.1.1 = Raised (Builtin IOError) /\ res.1.2 = sys /\ res.2 = [])
  /\ (forall video,
        input = Some video -> video_frames video <> [] -> (video_fps video == 0)%Q ->
        res.1.1.1 = Raised (Builtin ZeroDivisionError)
        /\ last (trace res.1.1.2) = Some EvRelease
        /\ res.1.2 = sys /\ res.2 = []).
Proof.
  intros res. subst res. split.
  - intros ->. by rewrite (main_raise args None sys IOError).
  - intros video -> Hne Hz.
    destruct (video_frames video) as [|f0 rest] eqn:Hframes; [done|].
    destruct (run_frames_trace video (args_params args) f0 rest Hframes)
      as (Hrun & _ & _ & _ & _ & _ & Hlast).
    rewrite (main_raise args (Some video) sys ZeroDivisionError).
    + done.
    + rewrite Hrun. by apply boundary_builder_zero.
Qed.

(** X22. On a source that opens and holds no frame, the script returns
    normally without running any command, yet it has reset the output
    directory: the directory is tested, removed when it exists, created
    again, and the closing message is printed. *)
Theorem main_empty_source (args : Args) (video : Video) (sys : S) :
  video_frames video = [] ->
  let res := main args (Some video) sys in
  let dir := args_output_dir args in
  let found := os_path_exists sys dir in
  res.1.1.1 = Returned
  /\ res.2 = OsExists dir found :: (if found then [OsRmtree dir] else [])
             ++ [OsMakedirs dir; OsPrint (saved_message dir)]
  /\ res.1.2 = os_makedirs (if found then shutil_rmtree sys dir else sys) dir.
Proof.
  intros Hframes res dir found. subst res.
  destruct (run_no_frames video (args_params args) Hframes) as [Hrun _].
  rewrite (main_split args (Some video) sys [] [] Hrun eq_refl).
  rewrite split_scenes_unfold. done.
Qed.

(** X23. On a source with at least one frame and a positive frame rate,
    when every [ffmpeg] call returns 0, the script returns normally and the
    commands it ran are those of the merged scenes of the detection; these
    scenes are contiguous, the first starts at 0 and the last ends at
    [total_frames / fps], so the files written cover the whole video with no
    gap and no overlap. *)
Theorem main_splits_whole_video (args : Args) (video : Video) (sys : S) :
  video_frames video <> [] ->
  (0 < video_fps video)%Q ->
  (forall s cmd, (subprocess_run s cmd).1 = 0) ->
  let res := main args (Some video) sys in
  res.1.1.1 = Returned
  /\ exists scenes merged first final,
       (detect_scenes_dynamic (Some video) (args_params args)).1 = Ok scenes
       /\ merge_short_scenes scenes (args_min_duration args) = Ok merged
       /\ fst <$> runs res.2
          = commands (args_video_file args) (args_output_dir args) 1 merged
       /\ Forall (fun x => x.2 = 0) (runs res.2)
       /\ Contiguous merged
       /\ head merged = Some first /\ (first.1 == 0)%Q
       /\ last merged = Some final
       /\ final.2 = (inject_Z (py_int (video_frame_count video)) / video_fps video)%Q.
Proof.
  intros Hne Hfps Hok res. subst res.
  destruct (detect_tiles video (args_params args) Hne)
    as (scenes & f & l & Hrun & Hc & Hf & Hf0 & Hl & Hl1); [lra|].
  destruct (merge_tiles scenes f l (args_min_duration args) Hc Hf Hl)
    as (merged & mf & ml & Hm & Hmc & Hmf & Hmf0 & Hml & Hml1).
  rewrite (main_split args (Some video) sys scenes merged Hrun Hm).
  rewrite split_scenes_unfold. cbn [fst snd]. set (sys0 := os_makedirs _ _).
  pose proof (split_loop_all_succeed (args_video_file args) (args_output_dir args)
                1 merged sys0 Hok) as Hret.
  destruct (split_loop_runs (args_video_file args) (args_output_dir args) 1 merged sys0)
    as (_ & _ & Hres).
  rewrite Hret in *. destruct Hres as [Hcmds Hzero].
  split; [done|]. exists scenes, merged, mf, ml.
  rewrite runs_reset. cbn [runs omap list_omap]. rewrite app_nil_r.
  split_and!; try done.
  - rewrite Hmf0, Hf0. unfold Qdiv. apply Qmult_0_l.
  - by rewrite Hml1.
Qed.

End ScriptClaims.

(** The script on the one-frame source with a frame rate of 0, with an
    output directory left by an earlier run. *)
Example main_still_run :
  main MockSystem.args (Some Mock.still) 0%nat
  = (Raised (Builtin ZeroDivisionError),
     (main MockSystem.args (Some Mock.still) 0%nat).1.1.2, 0%nat, [])
  /\ os_path_exists 0%nat (args_output_dir MockSystem.args) = true.
Proof. split; vm_compute; reflexivity. Qed.

Lemma main_empty_source_witness :
  video_frames MockSystem.blank = []
  /\ let res := main MockSystem.args (Some MockSystem.blank) 0%nat in
     let dir := args_output_dir MockSystem.args in
     let found := os_path_exists 0%nat dir in
     res.1.1.1 = Returned
     /\ res.2 = OsExists dir found :: (if found then [OsRmtree dir] else [])
                ++ [OsMakedirs dir; OsPrint (saved_message dir)]
     /\ res.1.2 = os_makedirs (if found then shutil_rmtree 0%nat dir else 0%nat) dir.
Proof.
  split; [reflexivity|].
  apply (main_empty_source MockSystem.args MockSystem.blank 0%nat). reflexivity.
Defined.

Lemma main_splits_whole_video_witness :
  video_frames Mock.clip <> []
  /\ (0 < video_fps Mock.clip)%Q
  /\ (forall s cmd, (@subprocess_run unit MockSystem.always_ok s cmd).1 = 0)
  /\ let res := main MockSystem.args (Some Mock.clip) tt in
     res.1.1.1 = Returned
     /\ exists scenes merged first final,
          (detect_scenes_dynamic (Some Mock.clip) (args_params MockSystem.args)).1
          = Ok scenes
          /\ merge_short_scenes scenes (args_min_duration MockSystem.args) = Ok merged
          /\ fst <$> runs res.2
             = commands (args_video_file MockSystem.args)
                 (args_output_dir MockSystem.args) 1 merged
          /\ Forall (fun x => x.2 = 0) (runs res.2)
          /\ Contiguous merged
          /\ head merged = Some first /\ (first.1 == 0)%Q
          /\ last merged = Some final
          /\ final.2
             = (inject_Z (py_int (video_frame_count Mock.clip)) / video_fps Mock.clip)%Q.
Proof.
  split; [discriminate|]. split; [reflexivity|]. split; [intros s cmd; reflexivity|].
  apply (main_splits_whole_video MockSystem.args Mock.clip tt);
    [discriminate | reflexivity | intros s cmd; reflexivity].
Defined.

(** The script on the concrete source: two scenes, two files. *)
Example main_run :
  let res := main MockSystem.args (Some Mock.clip) tt in
  res.1.1.1 = Returned
  /\ omap last (fst <$> runs res.2) = ["out/Scene_1.mp4"; "out/Scene_2.mp4"].
Proof. vm_compute. done. Qed.
